(** * Resolution of environment plugins (packages/vite/src/node/plugin.ts)

    A shallow embedding of [resolveIsolatedPlugins] and
    [asyncFlattenIsolatedPlugin], with the JavaScript values they inspect,
    the arrays they allocate and mutate, and the constructor functions they
    call. *)

From Stdlib Require Import ZArith String List Bool Lia.
From stdpp Require Import base list.
Import ListNotations.

Set Default Proof Using "Type".
Set Warnings "-register-all".

(** ** JavaScript values *)

Definition fn_id := nat.
Definition obj_id := nat.
Definition loc := nat.

(** The properties of a plain object.  [split] says whether the object has a
    truthy [split] property, which is all that [v?.split] looks at; neither
    function reads [name] or [sharedDuringBuild].  Plain objects have no
    [then] here: promise-like values are [VFulfilled] and [VRejected]. *)
Record fields : Type := {
  name : string;
  sharedDuringBuild : option bool;
  split : bool
}.

(** A value carries what the two functions can tell apart: its type, its
    truthiness, whether it is an array, and its [then] and [split].  Numbers
    are the integers.  An object has an identity [id]; a function is known by
    its identity only, what it does when called is in the table of
    constructors below, and it has no [then] or [split] of its own.  A
    promise is known by how it settles. *)
Inductive value : Type :=
| VUndefined
| VNull
| VBool (b : bool)
| VNum (n : Z)
| VStr (s : string)
| VObj (id : obj_id) (f : fields)
| VFun (f : fn_id)
| VArr (items : list value)
| VFulfilled (v : value)
| VRejected (reason : value).

(** How a call or an await ends. *)
Inductive completion (A : Type) : Type :=
| Normal (a : A)
| Abrupt (e : value).
Arguments Normal {A} a.
Arguments Abrupt {A} e.

Inductive mode : Type := Dev | Build | Scan.

(** [PluginEnvironment]: [config_plugins] is the array that
    [environment.config.plugins] refers to. *)
Record PluginEnvironment : Type := {
  env_name : string;
  env_mode : mode;
  config_plugins : loc
}.

(** [Boolean(v)] *)
Definition truthy (v : value) : bool :=
  match v with
  | VUndefined | VNull => false
  | VBool b => b
  | VNum n => negb (n =? 0)%Z
  | VStr s => negb (String.eqb s EmptyString)
  | _ => true
  end.

(** [typeof v === 'function'] *)
Definition is_function (v : value) : bool :=
  match v with VFun _ => true | _ => false end.

(** [Array.isArray(v)] *)
Definition is_array (v : value) : bool :=
  match v with VArr _ => true | _ => false end.

(** [v?.then], as a condition *)
Definition has_then (v : value) : bool :=
  match v with VFulfilled _ | VRejected _ => true | _ => false end.

(** [v?.split], as a condition: every string inherits [split] from
    [String.prototype] *)
Definition has_split (v : value) : bool :=
  match v with
  | VStr _ => true
  | VObj _ f => split f
  | _ => false
  end.

(** [arr.flat(Infinity)] *)
Fixpoint flat (v : value) : list value :=
  match v with
  | VArr items =>
      (fix flat_items (l : list value) : list value :=
         match l with
         | [] => []
         | x :: l' => flat x ++ flat_items l'
         end) items
  | _ => [v]
  end.

Definition flat_all (l : list value) : list value := flat (VArr l).

(** What awaiting a value gives: a promise fulfilled with a promise follows
    it; anything that is not a promise is its own result. *)
Fixpoint js_await (v : value) : completion value :=
  match v with
  | VFulfilled v' => js_await v'
  | VRejected e => Abrupt e
  | _ => Normal v
  end.

(** [Promise.all] over values that are already there: the results in index
    order, or a rejection.  Which reason wins when several promises reject
    depends on when they settle; the leftmost is taken here. *)
Fixpoint promise_all (l : list value) : completion (list value) :=
  match l with
  | [] => Normal []
  | v :: l' =>
      match js_await v with
      | Abrupt e => Abrupt e
      | Normal x =>
          match promise_all l' with
          | Abrupt e => Abrupt e
          | Normal xs => Normal (x :: xs)
          end
      end
  end.

(** ** The store and the constructors *)

Record call_record : Type := {
  callee : fn_id;
  call_env : PluginEnvironment;
  call_result : completion value
}.

(** How a computation ends: with a value, with a thrown value (the promise
    of an async function rejects), or not within the steps it was given. *)
Inductive outcome (A : Type) : Type :=
| Ok (a : A)
| Fail (e : value)
| OutOfFuel.
Arguments Ok {A} a.
Arguments Fail {A} e.
Arguments OutOfFuel {A}.

Section Store.

(** [U] is whatever state the constructors keep between calls.  A
    constructor runs to its completion when it is called: a promise it
    returns is a [VFulfilled] or a [VRejected], so the calls of one [map] take
    effect in index order.  Constructors do not write to the arrays of the
    heap: [environment.config.plugins] is read-only to them. *)
Context {U : Type}.

(** [heap] holds the arrays that are shared by reference; [trace] records
    every constructor call, in order. *)
Record state : Type := {
  heap : list (list value);
  user : U;
  trace : list call_record
}.

(** A computation goes from a state to an outcome and the state it stops
    in. *)
Definition M (A : Type) : Type := state -> outcome A * state.

Definition ret {A} (a : A) : M A := fun s => (Ok a, s).

Definition bind {A B} (m : M A) (k : A -> M B) : M B :=
  fun s =>
    match m s with
    | (Ok a, s') => k a s'
    | (Fail e, s') => (Fail e, s')
    | (OutOfFuel, s') => (OutOfFuel, s')
    end.

Definition throw {A} (e : value) : M A := fun s => (Fail e, s).

Definition out_of_fuel {A} : M A := fun s => (OutOfFuel, s).

Definition lift {A} (c : completion A) : M A :=
  match c with
  | Normal a => ret a
  | Abrupt e => throw e
  end.

Definition TypeError : value := VStr "TypeError".

Definition set_heap (h : list (list value)) (s : state) : state :=
  {| heap := h; user := user s; trace := trace s |}.

End Store.

Arguments state U : clear implicits.
Arguments M U A : clear implicits.
Arguments ret {U A} a.
Arguments bind {U A B} m k.
Arguments throw {U A} e.
Arguments out_of_fuel {U A}.
Arguments lift {U A} c.

Notation "x <- m ;; k" := (bind m (fun x => k))
  (at level 100, m at next level, right associativity).

(** ** The two functions *)

Section Resolution.

Context {U : Type}.
Variable constructors : fn_id -> PluginEnvironment -> U -> completion value * U.

(** [f(environment)] *)
Definition invoke (f : fn_id) (env : PluginEnvironment) : M U value :=
  fun s =>
    let '(c, u) := constructors f env (user s) in
    let s' := {| heap := heap s; user := u;
                 trace := trace s ++ [{| callee := f; call_env := env;
                                          call_result := c |}] |} in
    match c with
    | Normal v => (Ok v, s')
    | Abrupt e => (Fail e, s')
    end.

(** [[]] *)
Definition new_array : M U loc :=
  fun s => (Ok (length (heap s)), set_heap (heap s ++ [[]]) s).

(** [a.push(...xs)]: the elements of [xs] are the arguments of one call.
    An engine refuses a call with more arguments than it allows, with a
    [RangeError]; the limit is the engine's and is not in the model, which is
    that of a call within the limit. *)
Definition push (a : loc) (xs : list value) : M U unit :=
  fun s =>
    match heap s !! a with
    | Some arr => (Ok tt, set_heap (<[a := arr ++ xs]> (heap s)) s)
    | None => (Fail TypeError, s)
    end.

(** [for (const x of a) body], from index [i]: the array iterator reads the
    array again at every step. *)
Fixpoint for_of (fuel : nat) (a : loc) (i : nat) (body : value -> M U unit)
  : M U unit :=
  match fuel with
  | 0 => out_of_fuel
  | S fuel' =>
      fun s =>
        match heap s !! a with
        | None => (Fail TypeError, s)
        | Some arr =>
            match arr !! i with
            | None => (Ok tt, s)
            | Some x =>
                (_ <- body x ;; for_of fuel' a (S i) body) s
            end
        end
  end.

(** [plugins.map((p) => (typeof p === 'function' ? p(environment) : p))] *)
Fixpoint map_call (env : PluginEnvironment) (plugins : list value)
  : M U (list value) :=
  match plugins with
  | [] => ret []
  | p :: rest =>
      x <- (match p with
            | VFun f => invoke f env
            | _ => ret p
            end) ;;
      xs <- map_call env rest ;;
      ret (x :: xs)
  end.

(** One turn of the [do ... while] body. *)
Definition flatten_pass (env : PluginEnvironment) (plugins : list value)
  : M U (list value) :=
  mapped <- map_call env plugins ;;
  settled <- lift (promise_all mapped) ;;
  ret (List.filter truthy (flat_all settled)).

(** [plugins.some((v) => v?.then || v?.split)] *)
Definition unsettled (plugins : list value) : bool :=
  existsb (fun v => has_then v || has_split v) plugins.

Fixpoint flatten_loop (fuel : nat) (env : PluginEnvironment)
  (plugins : list value) : M U (list value) :=
  match fuel with
  | 0 => out_of_fuel
  | S fuel' =>
      plugins' <- flatten_pass env plugins ;;
      if unsettled plugins' then flatten_loop fuel' env plugins'
      else ret plugins'
  end.

Definition asyncFlattenIsolatedPlugin (fuel : nat) (env : PluginEnvironment)
  (plugins : value) : M U (list value) :=
  flatten_loop fuel env
    (match plugins with
     | VArr items => items
     | _ => [plugins]
     end).

(** The body of the [for ... of] loop of [resolveIsolatedPlugins]. *)
Definition resolve_entry (fuel : nat) (env : PluginEnvironment)
  (resolvedPlugins : loc) (plugin : value) : M U unit :=
  match plugin with
  | VFun f =>
      returned <- invoke f env ;;
      isolatedPlugin <- lift (js_await returned) ;;
      if truthy isolatedPlugin then
        flatPlugins <- asyncFlattenIsolatedPlugin fuel env isolatedPlugin ;;
        push resolvedPlugins flatPlugins
      else ret tt
  | _ => push resolvedPlugins [plugin]
  end.

Definition resolveIsolatedPlugins (fuel : nat) (env : PluginEnvironment)
  : M U loc :=
  resolvedPlugins <- new_array ;;
  _ <- for_of fuel (config_plugins env) 0
         (resolve_entry fuel env resolvedPlugins) ;;
  ret resolvedPlugins.

(** What [resolve_entry] pushes for one entry, and what the whole loop
    pushes for a list of entries: the loop without its array.
    [for_of_contributions] relates them to the loop itself. *)
Definition entry_plugins (fuel : nat) (env : PluginEnvironment)
  (plugin : value) : M U (list value) :=
  match plugin with
  | VFun f =>
      returned <- invoke f env ;;
      isolatedPlugin <- lift (js_await returned) ;;
      if truthy isolatedPlugin then
        asyncFlattenIsolatedPlugin fuel env isolatedPlugin
      else ret []
  | _ => ret [plugin]
  end.

Fixpoint contributions (steps fuel : nat) (env : PluginEnvironment)
  (entries : list value) : M U (list value) :=
  match steps with
  | 0 => out_of_fuel
  | S steps' =>
      match entries with
      | [] => ret []
      | plugin :: rest =>
          xs <- entry_plugins fuel env plugin ;;
          ys <- contributions steps' fuel env rest ;;
          ret (xs ++ ys)
      end
  end.

(** What the caller of [resolveIsolatedPlugins] gets to see. *)
Inductive observation : Type :=
| Resolved (plugins : list value)
| Rejected (e : value)
| Unfinished.

Definition observe (r : outcome loc * state U) : observation :=
  match r with
  | (Ok a, s) =>
      match heap s !! a with
      | Some arr => Resolved arr
      | None => Rejected TypeError
      end
  | (Fail e, _) => Rejected e
  | (OutOfFuel, _) => Unfinished
  end.

End Resolution.

Arguments observe {U} r.

(** ** Induction on values, through the elements of arrays *)

Section ValueInduction.

Variable P : value -> Prop.
Hypothesis HUndefined : P VUndefined.
Hypothesis HNull : P VNull.
Hypothesis HBool : forall b, P (VBool b).
Hypothesis HNum : forall n, P (VNum n).
Hypothesis HStr : forall s, P (VStr s).
Hypothesis HObj : forall id f, P (VObj id f).
Hypothesis HFun : forall f, P (VFun f).
Hypothesis HArr : forall items, Forall P items -> P (VArr items).
Hypothesis HFulfilled : forall v, P v -> P (VFulfilled v).
Hypothesis HRejected : forall e, P e -> P (VRejected e).

Fixpoint value_nested_ind (v : value) : P v :=
  match v with
  | VUndefined => HUndefined
  | VNull => HNull
  | VBool b => HBool b
  | VNum n => HNum n
  | VStr s => HStr s
  | VObj id f => HObj id f
  | VFun f => HFun f
  | VArr items =>
      HArr items
        ((fix all (l : list value) : Forall P l :=
            match l with
            | [] => List.Forall_nil P
            | x :: l0 => List.Forall_cons P x l0 (value_nested_ind x) (all l0)
            end) items)
  | VFulfilled v' => HFulfilled v' (value_nested_ind v')
  | VRejected e => HRejected e (value_nested_ind e)
  end.

End ValueInduction.

(** ** Properties of computations *)

(** [m] neither reads nor writes the heap. *)
Definition ignores_heap {U A} (m : M U A) : Prop :=
  forall s h, m (set_heap h s) = (fst (m s), set_heap h (snd (m s))).

(** The constructors are pure: what a call returns depends on the function
    and the environment only, not on what happened before. *)
Definition pure_constructors {U}
  (constructors : fn_id -> PluginEnvironment -> U -> completion value * U)
  : Prop :=
  forall f env u u', fst (constructors f env u) = fst (constructors f env u').

(** The outcome of [m] does not depend on the state it starts in. *)
Definition stateless {U A} (m : M U A) : Prop :=
  forall s s', fst (m s) = fst (m s').

(** A constructor call that threw, or whose returned promise rejected. *)
Definition failed (c : call_record) : bool :=
  match call_result c with
  | Abrupt _ => true
  | Normal v =>
      match js_await v with
      | Abrupt _ => true
      | Normal _ => false
      end
  end.

Definition is_fail {A} (o : outcome A) : bool :=
  match o with Fail _ => true | _ => false end.

(** [m] only adds calls to the trace, and unless it fails none of the calls
    it adds has failed. *)
Definition fail_fast {U A} (m : M U A) : Prop :=
  forall s, exists calls,
    trace (snd (m s)) = trace s ++ calls /\
    (is_fail (fst (m s)) = false -> Forall (fun c => failed c = false) calls).

(** How often the function [f] occurs in a value: as the value itself, as
    an element of an array at any depth, or as what a promise is fulfilled
    with. *)
Fixpoint occurrences (f : fn_id) (v : value) : nat :=
  match v with
  | VFun g => if Nat.eqb g f then 1 else 0
  | VArr items =>
      (fix occurrences_items (l : list value) : nat :=
         match l with
         | [] => 0
         | x :: l' => occurrences f x + occurrences_items l'
         end) items
  | VFulfilled v' => occurrences f v'
  | _ => 0
  end.

Definition occurrences_in (f : fn_id) (l : list value) : nat :=
  occurrences f (VArr l).

(** How often [f] was called. *)
Definition calls_to (f : fn_id) (calls : list call_record) : nat :=
  length (List.filter (fun c => Nat.eqb (callee c) f) calls).

(** How often [f] occurs in what the calls returned. *)
Fixpoint returned_occurrences (f : fn_id) (calls : list call_record) : nat :=
  match calls with
  | [] => 0
  | c :: rest =>
      match call_result c with
      | Normal v => occurrences f v
      | Abrupt _ => 0
      end + returned_occurrences f rest
  end.

(** [m] calls [f] no more often than [budget] plus the occurrences of [f] in
    what its calls returned allow, and keeps [left a] of that for a result
    [a]; all its calls are made with [env]. *)
Definition within_budget {U A} (f : fn_id) (env : PluginEnvironment)
  (left : A -> nat) (m : M U A) (budget : nat) : Prop :=
  forall s, exists calls,
    trace (snd (m s)) = trace s ++ calls /\
    Forall (fun c => call_env c = env) calls /\
    calls_to f calls + match fst (m s) with Ok a => left a | _ => 0 end
      <= budget + returned_occurrences f calls.

(** A concrete plugin: a plain object, with no [split] property. *)
Definition is_plugin (v : value) : bool :=
  match v with
  | VObj _ f => negb (split f)
  | _ => false
  end.

(** A value that [flatten_pass] hands on as it is: no function, no promise,
    no array. *)
Definition plain (v : value) : bool :=
  negb (is_function v) && negb (has_then v) && negb (is_array v).

(** [typeof v === 'object'], arrays and [null] apart *)
Definition is_object (v : value) : bool :=
  match v with
  | VObj _ _ | VFulfilled _ | VRejected _ => true
  | _ => false
  end.

(** A malformed element: not a function, not an object, not an array and
    not falsy. *)
Definition malformed (v : value) : bool :=
  negb (is_function v) && negb (is_object v) && negb (is_array v) && truthy v.

(** [false], [null] or [undefined] *)
Definition nullish_or_false (v : value) : bool :=
  match v with
  | VUndefined | VNull | VBool false => true
  | _ => false
  end.

(** The same tree without the [false], [null] and [undefined] elements of
    its arrays, at every depth of array nesting. *)
Fixpoint prune (v : value) : value :=
  match v with
  | VArr items =>
      VArr ((fix prune_items (l : list value) : list value :=
               match l with
               | [] => []
               | x :: l' =>
                   if nullish_or_false x then prune_items l'
                   else prune x :: prune_items l'
               end) items)
  | _ => v
  end.

Definition prune_all (l : list value) : list value :=
  match prune (VArr l) with
  | VArr l' => l'
  | _ => l
  end.

(** What one element of the [map] result contributes to the list after
    [Promise.all], [flat] and [filter], and the same for the whole result. *)
Definition settle_one (v : value) : completion (list value) :=
  match js_await v with
  | Normal x => Normal (List.filter truthy (flat x))
  | Abrupt e => Abrupt e
  end.

Definition settle_all (mapped : list value) : completion (list value) :=
  match promise_all mapped with
  | Normal settled => Normal (List.filter truthy (flat_all settled))
  | Abrupt e => Abrupt e
  end.

(** ** Trees of arrays and promises *)

(** What is left of a value once the promises around it are fulfilled. *)
Fixpoint awaited (v : value) : value :=
  match v with
  | VFulfilled v' => awaited v'
  | _ => v
  end.

(** How deep fulfilled promises are nested in a value; arrays do not count. *)
Fixpoint promise_depth (v : value) : nat :=
  match v with
  | VArr items =>
      (fix promise_depth_items (l : list value) : nat :=
         match l with
         | [] => 0
         | x :: l' => Nat.max (promise_depth x) (promise_depth_items l')
         end) items
  | VFulfilled v' => S (promise_depth v')
  | _ => 0
  end.

Definition promise_depth_in (l : list value) : nat := promise_depth (VArr l).

(** The leaves of a value, through its arrays and through what its promises
    are fulfilled with, depth first and from left to right.  A leaf is
    neither an array nor a fulfilled promise. *)
Fixpoint leaves (v : value) : list value :=
  match v with
  | VArr items =>
      (fix leaves_items (l : list value) : list value :=
         match l with
         | [] => []
         | x :: l' => leaves x ++ leaves_items l'
         end) items
  | VFulfilled v' => leaves v'
  | _ => [v]
  end.

Definition leaves_in (l : list value) : list value := leaves (VArr l).

(** A leaf that no pass calls and that keeps no loop going by a [split]. *)
Definition inert_leaf (v : value) : bool :=
  negb (is_function v) && negb (has_split v).

Definition is_rejected (v : value) : bool :=
  match v with VRejected _ => true | _ => false end.

(** How often the function [f] is an entry of the list itself. *)
Definition listed (f : fn_id) (l : list value) : nat :=
  length (List.filter
            (fun v => match v with VFun g => Nat.eqb g f | _ => false end) l).

(** The functions among the elements of a list, in index order. *)
Fixpoint functions_of (l : list value) : list fn_id :=
  match l with
  | [] => []
  | VFun g :: rest => g :: functions_of rest
  | _ :: rest => functions_of rest
  end.

(** The state [s] with the list [l] as [environment.config.plugins]. *)
Definition with_config {U} (env : PluginEnvironment) (l : list value)
  (s : state U) : state U :=
  set_heap (<[config_plugins env := l]> (heap s)) s.


(** ** The builder *)

Module Builder.

(** The builder of one build invocation creates the build environments and
    gives each of them its top-level plugin list.  It is not among the
    sources, which only declare the [sharedDuringBuild] flag and never read
    it.  Section 4.3 of the spec: with the flag true, "a single plugin
    instance (or single constructor invocation result) is reused across every
    build environment created within one build invocation, rather than
    constructing a fresh instance per environment"; "when false or absent,
    each environment receives its own freshly constructed instance".

    Calling a constructor is not the builder's work: section 4.2 has the
    top-level list of an environment hold "[Plugin | EnvironmentConstructor]
    entries", and the function that calls them is [resolveIsolatedPlugins],
    which is among the sources.  So the builder makes the plugin objects and
    hands a constructor on as the function it is. *)

(** An entry of the configuration: a plugin, given by its fields, or a
    constructor function together with the [sharedDuringBuild] property that
    the function carries ([IsolatedPluginConstructor]). *)
Inductive entry : Type :=
| PluginEntry (f : fields)
| ConstructorEntry (c : fn_id) (flag : option bool).









End Builder.

(** ** A small configuration *)

Module Example.

Definition plugin (id : obj_id) (n : string) : value :=
  VObj id {| name := n; sharedDuringBuild := None; split := false |}.

Definition D0 : value := plugin 10 "D0".
Definition D : value := plugin 11 "D".
Definition G : value := plugin 12 "G".
Definition H : value := plugin 13 "H".
Definition A : value := plugin 14 "A".
Definition B : value := plugin 15 "B".
Definition C : value := plugin 16 "C".

(** Constructors without a state of their own:
    - [0] returns a promise of [[D, 1]], and [1] returns [[G]];
    - [2] returns a promise of the constructor [3], which returns [H];
    - [4] returns [[A, false, [B, null], C]];
    - [5] returns the number 42;
    - [6] returns [[[3]]], the constructor [3] inside a nested array;
    - every other one throws. *)
Definition constructors (f : fn_id) (env : PluginEnvironment) (u : unit)
  : completion value * unit :=
  match f with
  | 0 => (Normal (VFulfilled (VArr [D; VFun 1])), u)
  | 1 => (Normal (VArr [G]), u)
  | 2 => (Normal (VFulfilled (VFun 3)), u)
  | 3 => (Normal H, u)
  | 4 => (Normal (VArr [A; VBool false; VArr [B; VNull]; C]), u)
  | 5 => (Normal (VNum 42), u)
  | 6 => (Normal (VArr [VArr [VFun 3]]), u)
  | _ => (Abrupt (VStr "boom"), u)
  end.

Definition client : PluginEnvironment :=
  {| env_name := "client"; env_mode := Build; config_plugins := 0 |}.


(** A state where [client.config.plugins] is [l], before any call. *)
Definition initial (l : list value) : state unit :=
  {| heap := [l]; user := tt; trace := [] |}.

(** A constructor that is not pure: it counts its calls and names the plugin
    it makes after the count. *)
Definition counting (f : fn_id) (env : PluginEnvironment) (u : nat)
  : completion value * nat :=
  (Normal (plugin u "counted"), S u).

Definition counting_initial : state nat :=
  {| heap := [[VFun 0]]; user := 0; trace := [] |}.

(** Constructors that all return the text "vue". *)
Definition text_constructors (f : fn_id) (env : PluginEnvironment) (u : unit)
  : completion value * unit :=
  (Normal (VStr "vue"), u).




(** Three entries of a build: a plugin that is shared during the build, a
    plugin that is not, and the constructor [3], which carries the flag. *)
Definition shared_entry : fields :=
  {| name := "shared"; sharedDuringBuild := Some true; split := false |}.

Definition own_entry : fields :=
  {| name := "own"; sharedDuringBuild := None; split := false |}.

Definition entries : list Builder.entry :=
  [Builder.PluginEntry shared_entry; Builder.PluginEntry own_entry;
   Builder.ConstructorEntry 3 (Some true)].






End Example.

(** * Facts *)

(** ** Values *)

Lemma flat_all_nil : flat_all [] = [].
Proof. reflexivity. Qed.

Lemma flat_all_cons x l : flat_all (x :: l) = flat x ++ flat_all l.
Proof. reflexivity. Qed.

Lemma flat_all_app l1 l2 : flat_all (l1 ++ l2) = flat_all l1 ++ flat_all l2.
Proof.
  induction l1 as [|x l1 IH]; [reflexivity|].
  rewrite <- app_comm_cons, !flat_all_cons, IH. apply app_assoc.
Qed.

Lemma flat_array items : flat (VArr items) = flat_all items.
Proof. reflexivity. Qed.

Lemma flat_not_array v : is_array v = false -> flat v = [v].
Proof. destruct v; simpl; intros; congruence. Qed.

(** [flat(Infinity)] leaves no array behind. *)
Lemma flat_no_array v : Forall (fun x => is_array x = false) (flat v).
Proof.
  induction v using value_nested_ind;
    try (repeat constructor).
  rewrite flat_array.
  induction H as [|x l Hx Hl IH]; [constructor|].
  rewrite flat_all_cons. apply Forall_app. split; assumption.
Qed.

Lemma flat_all_no_array l : Forall (fun x => is_array x = false) (flat_all l).
Proof. apply (flat_no_array (VArr l)). Qed.

Lemma js_await_not_promise v x : js_await v = Normal x -> has_then x = false.
Proof.
  induction v using value_nested_ind; simpl; intros E;
    try (inversion E; subst; reflexivity); auto; discriminate.
Qed.

(** ** Computations that leave the arrays alone *)

Section Facts.

Context {U : Type}.
Variable constructors : fn_id -> PluginEnvironment -> U -> completion value * U.

Lemma set_heap_same (s : state U) : set_heap (heap s) s = s.
Proof. destruct s; reflexivity. Qed.

Lemma set_heap_twice h h' (s : state U) :
  set_heap h (set_heap h' s) = set_heap h s.
Proof. reflexivity. Qed.

Lemma ignores_heap_keeps {A} (m : M U A) s :
  ignores_heap m -> heap (snd (m s)) = heap s.
Proof.
  intros Hm. specialize (Hm s (heap s)). rewrite set_heap_same in Hm.
  rewrite Hm at 1. reflexivity.
Qed.

Lemma ignores_heap_ret {A} (a : A) : ignores_heap (@ret U A a).
Proof. intros s h; reflexivity. Qed.

Lemma ignores_heap_lift {A} (c : completion A) : ignores_heap (@lift U A c).
Proof. intros s h; destruct c; reflexivity. Qed.

Lemma ignores_heap_bind {A B} (m : M U A) (k : A -> M U B) :
  ignores_heap m -> (forall a, ignores_heap (k a)) -> ignores_heap (bind m k).
Proof.
  intros Hm Hk s h. unfold bind. rewrite Hm.
  destruct (m s) as [[a| |] s']; simpl; try reflexivity. apply Hk.
Qed.

Lemma ignores_heap_invoke f env : ignores_heap (invoke constructors f env).
Proof.
  intros s h. unfold invoke. simpl.
  destruct (constructors f env (user s)) as [[v|e] u]; reflexivity.
Qed.

Lemma ignores_heap_map_call env plugins :
  ignores_heap (map_call constructors env plugins).
Proof.
  induction plugins as [|p rest IH]; simpl; [apply ignores_heap_ret|].
  apply ignores_heap_bind.
  - destruct p; try apply ignores_heap_ret. apply ignores_heap_invoke.
  - intros x. apply ignores_heap_bind; [exact IH|].
    intros; apply ignores_heap_ret.
Qed.

Lemma ignores_heap_flatten_pass env plugins :
  ignores_heap (flatten_pass constructors env plugins).
Proof.
  apply ignores_heap_bind; [apply ignores_heap_map_call|]. intros mapped.
  apply ignores_heap_bind; [apply ignores_heap_lift|].
  intros; apply ignores_heap_ret.
Qed.

Lemma ignores_heap_flatten_loop fuel env plugins :
  ignores_heap (flatten_loop constructors fuel env plugins).
Proof.
  revert plugins. induction fuel as [|fuel IH]; intros plugins; simpl.
  - intros s h; reflexivity.
  - apply ignores_heap_bind; [apply ignores_heap_flatten_pass|]. intros next.
    destruct (unsettled next); [apply IH | apply ignores_heap_ret].
Qed.

Lemma ignores_heap_entry_plugins fuel env plugin :
  ignores_heap (entry_plugins constructors fuel env plugin).
Proof.
  destruct plugin; try apply ignores_heap_ret. simpl.
  apply ignores_heap_bind; [apply ignores_heap_invoke|]. intros returned.
  apply ignores_heap_bind; [apply ignores_heap_lift|]. intros isolated.
  destruct (truthy isolated);
    [apply ignores_heap_flatten_loop | apply ignores_heap_ret].
Qed.

Lemma ignores_heap_contributions steps fuel env entries :
  ignores_heap (contributions constructors steps fuel env entries).
Proof.
  revert entries. induction steps as [|steps IH]; intros entries; simpl.
  - intros s h; reflexivity.
  - destruct entries as [|p rest]; [apply ignores_heap_ret|].
    apply ignores_heap_bind; [apply ignores_heap_entry_plugins|]. intros xs.
    apply ignores_heap_bind; [apply IH|]. intros; apply ignores_heap_ret.
Qed.

(** ** The loop and its array *)

Lemma push_last h acc xs (s : state U) :
  heap s = h ++ [acc] ->
  push (length h) xs s = (Ok tt, set_heap (h ++ [acc ++ xs]) s).
Proof.
  intros E. unfold push. rewrite E, list_lookup_middle by reflexivity.
  rewrite <- (Nat.add_0_r (length h)), insert_app_r. reflexivity.
Qed.

(** [resolve_entry] pushes what [entry_plugins] computes. *)
Lemma resolve_entry_push fuel env plugin (s : state U) h acc :
  heap s = h ++ [acc] ->
  resolve_entry constructors fuel env (length h) plugin s =
    match entry_plugins constructors fuel env plugin s with
    | (Ok xs, s') => (Ok tt, set_heap (h ++ [acc ++ xs]) s')
    | (Fail e, s') => (Fail e, s')
    | (OutOfFuel, s') => (OutOfFuel, s')
    end.
Proof.
  intros Hh.
  destruct plugin; simpl; try (apply push_last; assumption).
  unfold bind.
  pose proof (ignores_heap_keeps _ s (ignores_heap_invoke f env)) as Hi.
  destruct (invoke constructors f env s) as [[returned| |] s1]; try reflexivity.
  simpl in Hi. destruct (js_await returned) as [isolated|e]; simpl; [|reflexivity].
  destruct (truthy isolated).
  - unfold asyncFlattenIsolatedPlugin.
    match goal with |- context [flatten_loop _ _ _ ?l s1] =>
      pose proof (ignores_heap_keeps _ s1
                    (ignores_heap_flatten_loop fuel env l)) as Hf;
      destruct (flatten_loop constructors fuel env l s1) as [[xs| |] s2]
    end; try reflexivity.
    simpl in Hf. apply push_last. congruence.
  - unfold ret. rewrite app_nil_r, <- Hh, <- Hi, set_heap_same. reflexivity.
Qed.

(** The [for ... of] loop over [environment.config.plugins], with the fresh
    array last in the heap, pushes what [contributions] computes and leaves
    every other array as it was. *)
Lemma for_of_contributions fuel env cfg l h steps :
  h !! cfg = Some l ->
  forall i acc (s : state U),
    heap s = h ++ [acc] ->
    match for_of steps cfg i (resolve_entry constructors fuel env (length h)) s,
          contributions constructors steps fuel env (drop i l) s with
    | (Ok _, s1), (Ok out, s2) =>
        s1 = set_heap (h ++ [acc ++ out]) s2
    | (Fail e1, s1), (Fail e2, s2) =>
        e1 = e2 /\ exists acc', s1 = set_heap (h ++ [acc']) s2
    | (OutOfFuel, s1), (OutOfFuel, s2) =>
        exists acc', s1 = set_heap (h ++ [acc']) s2
    | _, _ => False
    end.
Proof.
  intros Hcfg. induction steps as [|steps IH]; intros i acc s Hh.
  - simpl. exists acc. rewrite <- Hh. symmetry. apply set_heap_same.
  - cbn [for_of contributions].
    assert (Hl : heap s !! cfg = Some l).
    { rewrite Hh, lookup_app_l by (eapply lookup_lt_Some; eassumption).
      assumption. }
    rewrite Hl. destruct (l !! i) as [x|] eqn:Hi.
    + rewrite (drop_S _ _ _ Hi). unfold bind.
      rewrite (resolve_entry_push fuel env x s h acc Hh).
      pose proof (ignores_heap_keeps _ s
                    (ignores_heap_entry_plugins fuel env x)) as Hk.
      destruct (entry_plugins constructors fuel env x s) as [[xs| |] s1];
        simpl in Hk.
      * specialize (IH (S i) (acc ++ xs) (set_heap (h ++ [acc ++ xs]) s1) eq_refl).
        rewrite (ignores_heap_contributions steps fuel env _ s1) in IH.
        destruct (for_of steps cfg (S i) _ _) as [[[]| |] s1'];
          destruct (contributions constructors steps fuel env _ s1)
            as [[ys| |] s2']; simpl in IH |- *; try contradiction.
        -- rewrite IH, set_heap_twice, <- app_assoc. reflexivity.
        -- destruct IH as [-> [acc' ->]]. split; [reflexivity|].
           exists acc'. apply set_heap_twice.
        -- destruct IH as [acc' ->]. exists acc'. apply set_heap_twice.
      * split; [reflexivity|]. exists acc.
        rewrite <- Hh, <- Hk. symmetry; apply set_heap_same.
      * exists acc. rewrite <- Hh, <- Hk. symmetry; apply set_heap_same.
    + rewrite drop_ge by (apply lookup_ge_None_1; assumption).
      simpl. unfold ret. rewrite app_nil_r, <- Hh. symmetry. apply set_heap_same.
Qed.

Lemma resolve_contributions fuel env (s : state U) l :
  heap s !! config_plugins env = Some l ->
  match resolveIsolatedPlugins constructors fuel env s,
        contributions constructors fuel fuel env l s with
  | (Ok r, s1), (Ok out, s2) =>
      r = length (heap s) /\ s1 = set_heap (heap s ++ [out]) s2
  | (Fail e1, s1), (Fail e2, s2) =>
      e1 = e2 /\ exists acc, s1 = set_heap (heap s ++ [acc]) s2
  | (OutOfFuel, s1), (OutOfFuel, s2) =>
      exists acc, s1 = set_heap (heap s ++ [acc]) s2
  | _, _ => False
  end.
Proof.
  intros Hcfg.
  pose proof (for_of_contributions fuel env _ l (heap s) fuel Hcfg 0 []
                (set_heap (heap s ++ [[]]) s) eq_refl) as H.
  rewrite drop_0, (ignores_heap_contributions fuel fuel env l s) in H.
  unfold resolveIsolatedPlugins, bind, new_array.
  destruct (for_of fuel _ 0 _ _) as [[[]| |] s1];
    destruct (contributions constructors fuel fuel env l s) as [[out| |] s2];
    simpl in H |- *; try contradiction.
  - split; [reflexivity|]. rewrite H. reflexivity.
  - destruct H as [-> [acc ->]]. split; [reflexivity|]. exists acc. reflexivity.
  - destruct H as [acc ->]. exists acc. reflexivity.
Qed.

(** What the caller sees is what [contributions] computes. *)
Lemma observe_resolve fuel env (s : state U) l :
  heap s !! config_plugins env = Some l ->
  observe (resolveIsolatedPlugins constructors fuel env s) =
    match fst (contributions constructors fuel fuel env l s) with
    | Ok out => Resolved out
    | Fail e => Rejected e
    | OutOfFuel => Unfinished
    end.
Proof.
  intros Hcfg. pose proof (resolve_contributions fuel env s l Hcfg) as H.
  destruct (resolveIsolatedPlugins constructors fuel env s) as [[r| |] s1];
    destruct (contributions constructors fuel fuel env l s) as [[out| |] s2];
    simpl in H |- *; try contradiction; try reflexivity.
  - destruct H as [-> ->]. simpl.
    rewrite list_lookup_middle by reflexivity. reflexivity.
  - destruct H as [-> _]. reflexivity.
Qed.

(** The constructor calls and the constructors' state are those of
    [contributions]. *)
Lemma resolve_trace fuel env (s : state U) l :
  heap s !! config_plugins env = Some l ->
  trace (snd (resolveIsolatedPlugins constructors fuel env s)) =
    trace (snd (contributions constructors fuel fuel env l s)) /\
  user (snd (resolveIsolatedPlugins constructors fuel env s)) =
    user (snd (contributions constructors fuel fuel env l s)).
Proof.
  intros Hcfg. pose proof (resolve_contributions fuel env s l Hcfg) as H.
  destruct (resolveIsolatedPlugins constructors fuel env s) as [[r| |] s1];
    destruct (contributions constructors fuel fuel env l s) as [[out| |] s2];
    simpl in H |- *; try contradiction.
  - destruct H as [_ ->]. split; reflexivity.
  - destruct H as [_ [acc ->]]. split; reflexivity.
  - destruct H as [acc ->]. split; reflexivity.
Qed.

(** Whatever way the call ends, the heap it leaves is the old heap with one
    more array after it. *)
Lemma resolve_heap fuel env (s : state U) l :
  heap s !! config_plugins env = Some l ->
  exists arr,
    heap (snd (resolveIsolatedPlugins constructors fuel env s)) = heap s ++ [arr].
Proof.
  intros Hcfg. pose proof (resolve_contributions fuel env s l Hcfg) as H.
  pose proof (ignores_heap_keeps _ s
                (ignores_heap_contributions fuel fuel env l)) as Hk.
  destruct (resolveIsolatedPlugins constructors fuel env s) as [[r| |] s1];
    destruct (contributions constructors fuel fuel env l s) as [[out| |] s2];
    simpl in H, Hk |- *; try contradiction.
  - destruct H as [_ ->]. eexists; reflexivity.
  - destruct H as [_ [acc ->]]. eexists; reflexivity.
  - destruct H as [acc ->]. eexists; reflexivity.
Qed.

(** C10: [resolveIsolatedPlugins] does not write to its input.  When
    [environment.config.plugins] is the array [l] before the call, it is the
    same array [l] after it, whether the call returned, threw or is still
    running; no other array that existed before is changed either, and the
    array that is returned did not exist before the call. *)
Theorem resolveIsolatedPlugins_frame fuel env (s : state U) l :
  heap s !! config_plugins env = Some l ->
  heap (snd (resolveIsolatedPlugins constructors fuel env s))
    !! config_plugins env = Some l /\
  (forall a arr, heap s !! a = Some arr ->
     heap (snd (resolveIsolatedPlugins constructors fuel env s)) !! a
       = Some arr) /\
  (forall r, fst (resolveIsolatedPlugins constructors fuel env s) = Ok r ->
     heap s !! r = None /\ r <> config_plugins env).
Proof.
  intros Hcfg.
  destruct (resolve_heap fuel env s l Hcfg) as [arr Hheap].
  assert (Hold : forall a arr0, heap s !! a = Some arr0 ->
            heap (snd (resolveIsolatedPlugins constructors fuel env s)) !! a
              = Some arr0).
  { intros a arr0 Ha. rewrite Hheap, lookup_app_l; [assumption|].
    eapply lookup_lt_Some; eassumption. }
  split; [apply Hold; assumption|]. split; [exact Hold|].
  intros r Hr. pose proof (resolve_contributions fuel env s l Hcfg) as H.
  destruct (resolveIsolatedPlugins constructors fuel env s) as [[r'| |] s1];
    simpl in Hr; try discriminate. inversion Hr; subst r'.
  destruct (contributions constructors fuel fuel env l s) as [[out| |] s2];
    try contradiction. destruct H as [-> _].
  split; [apply lookup_ge_None_2; lia|].
  apply lookup_lt_Some in Hcfg. lia.
Qed.

(** ** Pure constructors *)

Lemma stateless_ret {A} (a : A) : stateless (@ret U A a).
Proof. intros s s'; reflexivity. Qed.

Lemma stateless_lift {A} (c : completion A) : stateless (@lift U A c).
Proof. intros s s'; destruct c; reflexivity. Qed.

Lemma stateless_bind {A B} (m : M U A) (k : A -> M U B) :
  stateless m -> (forall a, stateless (k a)) -> stateless (bind m k).
Proof.
  intros Hm Hk s s'. unfold bind. specialize (Hm s s').
  destruct (m s) as [[a| |] s1]; destruct (m s') as [[a'| |] s1'];
    simpl in Hm; try discriminate; try reflexivity.
  - inversion Hm; subst. apply Hk.
  - simpl. congruence.
Qed.

Section Pure.

Hypothesis pure : pure_constructors constructors.

Lemma stateless_invoke f env : stateless (invoke constructors f env).
Proof using pure.
  intros s s'. unfold invoke. specialize (pure f env (user s) (user s')).
  destruct (constructors f env (user s)) as [[v|e] u];
    destruct (constructors f env (user s')) as [[v'|e'] u'];
    simpl in pure; try discriminate; simpl; congruence.
Qed.

Lemma stateless_map_call env plugins :
  stateless (map_call constructors env plugins).
Proof using pure.
  induction plugins as [|p rest IH]; simpl; [apply stateless_ret|].
  apply stateless_bind.
  - destruct p; try apply stateless_ret. apply stateless_invoke.
  - intros x. apply stateless_bind; [exact IH|]. intros; apply stateless_ret.
Qed.

Lemma stateless_flatten_loop fuel env plugins :
  stateless (flatten_loop constructors fuel env plugins).
Proof using pure.
  revert plugins. induction fuel as [|fuel IH]; intros plugins; simpl.
  - intros s s'; reflexivity.
  - apply stateless_bind.
    + apply stateless_bind; [apply stateless_map_call|]. intros mapped.
      apply stateless_bind; [apply stateless_lift|].
      intros; apply stateless_ret.
    + intros next. destruct (unsettled next); [apply IH | apply stateless_ret].
Qed.

Lemma stateless_entry_plugins fuel env plugin :
  stateless (entry_plugins constructors fuel env plugin).
Proof using pure.
  destruct plugin; try apply stateless_ret. simpl.
  apply stateless_bind; [apply stateless_invoke|]. intros returned.
  apply stateless_bind; [apply stateless_lift|]. intros isolated.
  destruct (truthy isolated);
    [apply stateless_flatten_loop | apply stateless_ret].
Qed.

Lemma stateless_contributions steps fuel env entries :
  stateless (contributions constructors steps fuel env entries).
Proof using pure.
  revert entries. induction steps as [|steps IH]; intros entries; simpl.
  - intros s s'; reflexivity.
  - destruct entries as [|p rest]; [apply stateless_ret|].
    apply stateless_bind; [apply stateless_entry_plugins|]. intros xs.
    apply stateless_bind; [apply IH|]. intros; apply stateless_ret.
Qed.

(** Two calls that find the same list in [environment.config.plugins] show
    the caller the same thing. *)
Lemma resolve_deterministic fuel env (s s' : state U) l :
  heap s !! config_plugins env = Some l ->
  heap s' !! config_plugins env = Some l ->
  observe (resolveIsolatedPlugins constructors fuel env s) =
  observe (resolveIsolatedPlugins constructors fuel env s').
Proof using pure.
  intros H H'.
  rewrite (observe_resolve fuel env s l H), (observe_resolve fuel env s' l H').
  rewrite (stateless_contributions fuel fuel env l s s'). reflexivity.
Qed.

End Pure.

(** C7: with pure constructors, resolving the same environment a second
    time, after the first call has ended, shows the caller the same ordered
    list as the first time (or the same failure), and the list the first call
    returned is still what it was. *)
Theorem resolveIsolatedPlugins_twice fuel env (s : state U) l :
  pure_constructors constructors ->
  heap s !! config_plugins env = Some l ->
  let first := resolveIsolatedPlugins constructors fuel env s in
  let second := resolveIsolatedPlugins constructors fuel env (snd first) in
  observe second = observe first /\
  (forall r out, fst first = Ok r -> heap (snd first) !! r = Some out ->
     heap (snd second) !! r = Some out).
Proof.
  intros pure Hcfg first second.
  destruct (resolve_heap fuel env s l Hcfg) as [arr Hheap].
  fold first in Hheap.
  assert (Hcfg' : heap (snd first) !! config_plugins env = Some l).
  { rewrite Hheap, lookup_app_l; [assumption|].
    eapply lookup_lt_Some; eassumption. }
  split.
  - apply (resolve_deterministic pure fuel env (snd first) s l Hcfg' Hcfg).
  - intros r out _ Hout.
    destruct (resolve_heap fuel env (snd first) l Hcfg') as [arr' Hheap'].
    fold second in Hheap'. rewrite Hheap', lookup_app_l; [assumption|].
    eapply lookup_lt_Some; eassumption.
Qed.

(** ** Failing constructors *)

Lemma fail_fast_ret {A} (a : A) : fail_fast (@ret U A a).
Proof.
  intros s. exists []. simpl. rewrite app_nil_r.
  split; [reflexivity | constructor].
Qed.

Lemma fail_fast_bind {A B} (m : M U A) (k : A -> M U B) :
  fail_fast m -> (forall a, fail_fast (k a)) -> fail_fast (bind m k).
Proof.
  intros Hm Hk s. unfold bind. destruct (Hm s) as [c1 [E1 F1]].
  destruct (m s) as [[a| |] s1]; simpl in *.
  - destruct (Hk a s1) as [c2 [E2 F2]]. exists (c1 ++ c2). split.
    + rewrite E2, E1. symmetry. apply app_assoc.
    + intros Hnf. apply Forall_app. split; [apply F1; reflexivity | apply F2; assumption].
  - exists c1. split; [assumption | discriminate].
  - exists c1. split; [assumption | exact F1].
Qed.

(** The calls of one [map], and what they returned. *)
Lemma map_call_calls env plugins (s : state U) o s' :
  map_call constructors env plugins s = (o, s') ->
  exists calls,
    trace s' = trace s ++ calls /\
    match o with
    | Ok mapped =>
        Forall (fun c => exists v, call_result c = Normal v /\ In v mapped) calls
    | Fail _ => True
    | OutOfFuel => False
    end.
Proof.
  revert s o s'. induction plugins as [|p rest IH]; intros s o s' E; simpl in E.
  - inversion E; subst. exists []. rewrite app_nil_r. split; [reflexivity|constructor].
  - unfold bind in E.
    destruct (match p with VFun f => invoke constructors f env | _ => ret p end s)
      as [[x| |] s1] eqn:Ep.
    + assert (Hp : exists c1, trace s1 = trace s ++ c1 /\
                Forall (fun c => call_result c = Normal x) c1).
      { destruct p; try (inversion Ep; subst; exists []; rewrite app_nil_r;
                         split; [reflexivity|constructor]).
        unfold invoke in Ep.
        destruct (constructors f env (user s)) as [[v|e] u]; inversion Ep; subst.
        eexists. split; [reflexivity|]. repeat constructor. }
      destruct Hp as [c1 [E1 F1]].
      destruct (map_call constructors env rest s1) as [[xs| |] s2] eqn:Er;
        destruct (IH _ _ _ Er) as [c2 [E2 F2]]; inversion E; subst;
        try contradiction;
        (exists (c1 ++ c2); split; [rewrite E2, E1; symmetry; apply app_assoc|]);
        [|exact I].
      apply Forall_app. split.
      * eapply Forall_impl; [exact F1|]. intros c Hc. exists x.
        split; [assumption | left; reflexivity].
      * eapply Forall_impl; [exact F2|]. intros c [v [Hv Hin]]. exists v.
        split; [assumption | right; assumption].
    + inversion E; subst.
      destruct p; try discriminate. unfold invoke in Ep.
      destruct (constructors f env (user s)) as [[v|e'] u]; inversion Ep; subst.
      eexists. split; [reflexivity | exact I].
    + destruct p; try discriminate. unfold invoke in Ep.
      destruct (constructors f env (user s)) as [[v|e'] u]; discriminate.
Qed.

Lemma promise_all_each l xs :
  promise_all l = Normal xs -> forall v, In v l -> exists x, js_await v = Normal x.
Proof.
  revert xs. induction l as [|v0 l IH]; intros xs E v Hin; [destruct Hin|].
  simpl in E. destruct (js_await v0) as [x0|] eqn:E0; [|discriminate].
  destruct (promise_all l) as [xs'|] eqn:El; [|discriminate].
  destruct Hin as [<- | Hin]; [eauto | eapply IH; eauto].
Qed.

Lemma fail_fast_flatten_pass env plugins :
  fail_fast (flatten_pass constructors env plugins).
Proof.
  intros s. unfold flatten_pass, bind.
  destruct (map_call constructors env plugins s) as [[mapped| |] s1] eqn:Em;
    destruct (map_call_calls env plugins s _ _ Em) as [calls [E F]];
    simpl in *; try contradiction.
  - exists calls. destruct (promise_all mapped) as [settled|e] eqn:Ep; simpl.
    + split; [assumption|]. intros _.
      eapply Forall_impl; [exact F|]. intros c [v [Hv Hin]].
      destruct (promise_all_each _ _ Ep v Hin) as [x Hx].
      unfold failed. rewrite Hv, Hx. reflexivity.
    + split; [assumption | discriminate].
  - exists calls. split; [assumption | discriminate].
Qed.

Lemma fail_fast_flatten_loop fuel env plugins :
  fail_fast (flatten_loop constructors fuel env plugins).
Proof.
  revert plugins. induction fuel as [|fuel IH]; intros plugins; simpl.
  - intros s. exists []. simpl. rewrite app_nil_r. split; [reflexivity|constructor].
  - apply fail_fast_bind; [apply fail_fast_flatten_pass|]. intros next.
    destruct (unsettled next); [apply IH | apply fail_fast_ret].
Qed.

Lemma fail_fast_entry_plugins fuel env plugin :
  fail_fast (entry_plugins constructors fuel env plugin).
Proof.
  destruct plugin; try apply fail_fast_ret. simpl.
  (* the call and the await of what it returned *)
  assert (Hcall : fail_fast (returned <- invoke constructors f env ;;
                             (@lift U _ (js_await returned)))).
  { intros s. unfold bind, invoke.
    destruct (constructors f env (user s)) as [[v|e] u]; simpl.
    - eexists. destruct (js_await v) as [x|e] eqn:Ev; simpl;
        (split; [reflexivity|]); [intros _ | discriminate].
      constructor; [|constructor]. unfold failed. simpl. rewrite Ev. reflexivity.
    - eexists. split; [reflexivity | discriminate]. }
  intros s.
  pose proof (fail_fast_bind _
    (fun isolated => if truthy isolated
                     then asyncFlattenIsolatedPlugin constructors fuel env isolated
                     else ret []) Hcall) as H.
  assert (Hk : forall a, fail_fast
            (if truthy a then asyncFlattenIsolatedPlugin constructors fuel env a
             else @ret U _ [])).
  { intros a. destruct (truthy a); [apply fail_fast_flatten_loop | apply fail_fast_ret]. }
  specialize (H Hk s). unfold bind in H |- *.
  destruct (invoke constructors f env s) as [[returned| |] s1]; exact H.
Qed.

Lemma fail_fast_contributions steps fuel env entries :
  fail_fast (contributions constructors steps fuel env entries).
Proof.
  revert entries. induction steps as [|steps IH]; intros entries; simpl.
  - intros s. exists []. simpl. rewrite app_nil_r. split; [reflexivity|constructor].
  - destruct entries as [|p rest]; [apply fail_fast_ret|].
    apply fail_fast_bind; [apply fail_fast_entry_plugins|]. intros xs.
    apply fail_fast_bind; [apply IH|]. intros; apply fail_fast_ret.
Qed.

(** C6: when a constructor that was called during the resolution threw, or
    returned a promise that rejects, [resolveIsolatedPlugins] itself fails:
    its caller gets the rejection and no list, whatever had been collected
    before. *)
Theorem resolveIsolatedPlugins_fails fuel env (s : state U) l :
  heap s !! config_plugins env = Some l ->
  exists calls,
    trace (snd (resolveIsolatedPlugins constructors fuel env s))
      = trace s ++ calls /\
    (existsb failed calls = true ->
     exists e,
       fst (resolveIsolatedPlugins constructors fuel env s) = Fail e /\
       observe (resolveIsolatedPlugins constructors fuel env s) = Rejected e).
Proof.
  intros Hcfg.
  destruct (fail_fast_contributions fuel fuel env l s) as [calls [E F]].
  exists calls. destruct (resolve_trace fuel env s l Hcfg) as [-> _].
  split; [assumption|]. intros Hex.
  pose proof (resolve_contributions fuel env s l Hcfg) as H.
  destruct (contributions constructors fuel fuel env l s) as [[out| |] s2];
    simpl in F.
  1, 3: specialize (F eq_refl); apply existsb_exists in Hex;
    destruct Hex as [c [Hin Hc]]; rewrite Forall_forall in F;
    apply list_elem_of_In in Hin; rewrite (F c Hin) in Hc; discriminate.
  destruct (resolveIsolatedPlugins constructors fuel env s) as [[r| |] s1];
    try contradiction. destruct H as [-> _]. exists e. split; reflexivity.
Qed.

(** ** How often a constructor is called *)

Lemma occurrences_in_cons f x l :
  occurrences_in f (x :: l) = occurrences f x + occurrences_in f l.
Proof. reflexivity. Qed.

Lemma occurrences_in_app f l1 l2 :
  occurrences_in f (l1 ++ l2) = occurrences_in f l1 + occurrences_in f l2.
Proof.
  induction l1 as [|x l1 IH]; [reflexivity|].
  rewrite <- app_comm_cons, !occurrences_in_cons, IH. lia.
Qed.

Lemma occurrences_flat f v : occurrences_in f (flat v) = occurrences f v.
Proof.
  induction v using value_nested_ind;
    try (unfold occurrences_in; simpl; lia).
  rewrite flat_array. change (occurrences f (VArr items)) with (occurrences_in f items).
  induction H as [|x l Hx Hl IH]; [reflexivity|].
  rewrite flat_all_cons, occurrences_in_app, occurrences_in_cons, Hx, IH.
  reflexivity.
Qed.

Lemma occurrences_filter f (p : value -> bool) l :
  occurrences_in f (List.filter p l) <= occurrences_in f l.
Proof.
  induction l as [|x l IH]; [reflexivity|]. simpl List.filter.
  destruct (p x); rewrite !occurrences_in_cons; lia.
Qed.

Lemma occurrences_js_await f v x :
  js_await v = Normal x -> occurrences f x = occurrences f v.
Proof.
  induction v using value_nested_ind; simpl; intros E;
    try (inversion E; subst; reflexivity); auto; discriminate.
Qed.

Lemma occurrences_promise_all f l xs :
  promise_all l = Normal xs -> occurrences_in f xs = occurrences_in f l.
Proof.
  revert xs. induction l as [|v l IH]; intros xs E; simpl in E.
  - inversion E; reflexivity.
  - destruct (js_await v) as [x|] eqn:Ev; [|discriminate].
    destruct (promise_all l) as [xs'|]; [|discriminate].
    inversion E; subst. rewrite !occurrences_in_cons, (IH xs' eq_refl).
    rewrite (occurrences_js_await f v x Ev). reflexivity.
Qed.

Lemma calls_to_app f c1 c2 : calls_to f (c1 ++ c2) = calls_to f c1 + calls_to f c2.
Proof. unfold calls_to. rewrite List.filter_app, length_app. reflexivity. Qed.

Lemma returned_occurrences_app f c1 c2 :
  returned_occurrences f (c1 ++ c2) =
  returned_occurrences f c1 + returned_occurrences f c2.
Proof. induction c1 as [|c c1 IH]; simpl; [reflexivity|]. rewrite IH. lia. Qed.

Lemma within_budget_ret {A} f env (left : A -> nat) (a : A) budget :
  left a <= budget -> within_budget f env left (@ret U A a) budget.
Proof.
  intros H s. exists []. simpl. rewrite app_nil_r.
  split; [reflexivity|]. split; [constructor|]. unfold calls_to; simpl. lia.
Qed.

Lemma within_budget_stop {A} f env (left : A -> nat) (m : M U A) budget :
  (forall s, snd (m s) = s /\ forall a, fst (m s) <> Ok a) ->
  within_budget f env left m budget.
Proof.
  intros H s. destruct (H s) as [Hs Hno]. exists []. rewrite Hs, app_nil_r.
  split; [reflexivity|]. split; [constructor|].
  destruct (fst (m s)) as [a| |]; [destruct (Hno a eq_refl)| |];
    unfold calls_to; simpl; lia.
Qed.

Lemma within_budget_bind {A B} f env (left : A -> nat) (left' : B -> nat)
  (m : M U A) (k : A -> M U B) budget :
  within_budget f env left m budget ->
  (forall a, within_budget f env left' (k a) (left a)) ->
  within_budget f env left' (bind m k) budget.
Proof.
  intros Hm Hk s. unfold bind. destruct (Hm s) as [c1 [E1 [V1 B1]]].
  destruct (m s) as [[a| |] s1]; simpl in *.
  - destruct (Hk a s1) as [c2 [E2 [V2 B2]]]. exists (c1 ++ c2).
    split; [rewrite E2, E1; symmetry; apply app_assoc|].
    split; [apply Forall_app; split; assumption|].
    rewrite calls_to_app, returned_occurrences_app. lia.
  - exists c1. split; [assumption|]. split; [assumption | lia].
  - exists c1. split; [assumption|]. split; [assumption | lia].
Qed.

(** More budget, or less kept, is as good; and what is not spent is kept. *)
Lemma within_budget_frame {A} f env (left left' : A -> nat) (m : M U A)
  budget budget' extra :
  within_budget f env left m budget ->
  budget + extra <= budget' ->
  (forall a, left' a <= left a + extra) ->
  within_budget f env left' m budget'.
Proof.
  intros Hm Hb Hl s. destruct (Hm s) as [calls [E [V B]]]. exists calls.
  split; [assumption|]. split; [assumption|].
  destruct (fst (m s)) as [a| |]; [specialize (Hl a)|..]; lia.
Qed.

Lemma within_budget_invoke f env g :
  within_budget f env (occurrences f) (invoke constructors g env)
    (occurrences f (VFun g)).
Proof.
  intros s. unfold invoke.
  destruct (constructors g env (user s)) as [[v|e] u]; simpl;
    (eexists; split; [reflexivity|]; split; [repeat constructor|]);
    unfold calls_to; simpl; destruct (Nat.eqb g f); simpl; lia.
Qed.

Lemma within_budget_map_call f env plugins :
  within_budget f env (occurrences_in f) (map_call constructors env plugins)
    (occurrences_in f plugins).
Proof.
  induction plugins as [|p rest IH]; simpl.
  - apply within_budget_ret. reflexivity.
  - apply within_budget_bind
      with (left := fun x => occurrences f x + occurrences_in f rest).
    + apply within_budget_frame
        with (left := occurrences f) (budget := occurrences f p)
             (extra := occurrences_in f rest);
        [|rewrite occurrences_in_cons; lia | intros; lia].
      destruct p; try (apply within_budget_ret; reflexivity).
      apply within_budget_invoke.
    + intros x. apply within_budget_bind
        with (left := fun xs => occurrences_in f (x :: xs)).
      * apply within_budget_frame
          with (left := occurrences_in f) (budget := occurrences_in f rest)
               (extra := occurrences f x);
          [exact IH | lia | intros; rewrite occurrences_in_cons; lia].
      * intros xs. apply within_budget_ret. reflexivity.
Qed.

Lemma within_budget_flatten_pass f env plugins :
  within_budget f env (occurrences_in f) (flatten_pass constructors env plugins)
    (occurrences_in f plugins).
Proof.
  apply within_budget_bind with (left := occurrences_in f);
    [apply within_budget_map_call|]. intros mapped.
  destruct (promise_all mapped) as [settled|e] eqn:Ep; simpl.
  - apply within_budget_bind with (left := occurrences_in f).
    + apply within_budget_ret. rewrite (occurrences_promise_all f _ _ Ep).
      reflexivity.
    + intros xs. apply within_budget_ret.
      etransitivity; [apply occurrences_filter|].
      unfold flat_all. rewrite occurrences_flat. reflexivity.
  - apply within_budget_stop. intros s. split; [reflexivity | discriminate].
Qed.

Lemma within_budget_flatten_loop f env fuel plugins :
  within_budget f env (fun _ => 0) (flatten_loop constructors fuel env plugins)
    (occurrences_in f plugins).
Proof.
  revert plugins. induction fuel as [|fuel IH]; intros plugins; simpl.
  - apply within_budget_stop. intros s. split; [reflexivity | discriminate].
  - apply within_budget_bind with (left := occurrences_in f);
      [apply within_budget_flatten_pass|]. intros next.
    destruct (unsettled next); [apply IH | apply within_budget_ret; lia].
Qed.

Lemma within_budget_entry_plugins f env fuel plugin :
  within_budget f env (fun _ => 0) (entry_plugins constructors fuel env plugin)
    (occurrences f plugin).
Proof.
  destruct plugin; try (apply within_budget_ret; lia). simpl entry_plugins.
  apply within_budget_bind with (left := occurrences f);
    [apply within_budget_invoke|]. intros returned.
  destruct (js_await returned) as [isolated|e] eqn:Ea; simpl.
  - apply within_budget_bind with (left := occurrences f).
    + apply within_budget_ret. rewrite (occurrences_js_await f _ _ Ea).
      reflexivity.
    + intros x. destruct (truthy x); [|apply within_budget_ret; lia].
      unfold asyncFlattenIsolatedPlugin.
      eapply within_budget_frame with (left := fun _ => 0) (extra := 0);
        [apply within_budget_flatten_loop | | intros; lia].
      destruct x; unfold occurrences_in; simpl; lia.
  - apply within_budget_stop. intros s. split; [reflexivity | discriminate].
Qed.

Lemma within_budget_contributions f env steps fuel entries :
  within_budget f env (fun _ => 0)
    (contributions constructors steps fuel env entries)
    (occurrences_in f entries).
Proof.
  revert entries. induction steps as [|steps IH]; intros entries; simpl.
  - apply within_budget_stop. intros s. split; [reflexivity | discriminate].
  - destruct entries as [|p rest]; [apply within_budget_ret; lia|].
    apply within_budget_bind with (left := fun _ => occurrences_in f rest).
    + eapply within_budget_frame
        with (left := fun _ => 0) (extra := occurrences_in f rest);
        [apply within_budget_entry_plugins
        | rewrite occurrences_in_cons; lia | intros; lia].
    + intros xs. apply within_budget_bind with (left := fun _ => 0);
        [apply IH | intros; apply within_budget_ret; lia].
Qed.

(** C8, amended: every occurrence of a constructor function is called at
    most once.  In one call of [resolveIsolatedPlugins], the function [f] is
    called, always with the environment of that call, at most as often as it
    occurs in the top-level list and in the values that the constructor calls
    of this resolution returned; a function that occurs once in the list and
    in no returned value is called at most once. *)
Theorem resolveIsolatedPlugins_calls f fuel env (s : state U) l :
  heap s !! config_plugins env = Some l ->
  exists calls,
    trace (snd (resolveIsolatedPlugins constructors fuel env s))
      = trace s ++ calls /\
    Forall (fun c => call_env c = env) calls /\
    calls_to f calls <= occurrences_in f l + returned_occurrences f calls /\
    (occurrences_in f l <= 1 -> returned_occurrences f calls = 0 ->
     calls_to f calls <= 1).
Proof.
  intros Hcfg.
  destruct (within_budget_contributions f env fuel fuel l s)
    as [calls [E [V B]]].
  exists calls. destruct (resolve_trace fuel env s l Hcfg) as [-> _].
  split; [assumption|]. split; [assumption|].
  assert (calls_to f calls <= occurrences_in f l + returned_occurrences f calls)
    by lia.
  split; [assumption | lia].
Qed.

(** ** What the normalizer returns *)

Lemma bind_ok {A B} (m : M U A) (k : A -> M U B) s a s' :
  m s = (Ok a, s') -> bind m k s = k a s'.
Proof. intros E. unfold bind. rewrite E. reflexivity. Qed.

Lemma invoke_returns f env (s : state U) v :
  fst (constructors f env (user s)) = Normal v ->
  invoke constructors f env s =
    (Ok v, {| heap := heap s; user := snd (constructors f env (user s));
              trace := trace s ++ [{| callee := f; call_env := env;
                                       call_result := Normal v |}] |}).
Proof.
  intros E. unfold invoke.
  destruct (constructors f env (user s)) as [c u]. simpl in E. subst c.
  reflexivity.
Qed.

Lemma flatten_pass_shape env plugins (s : state U) next s' :
  flatten_pass constructors env plugins s = (Ok next, s') ->
  exists settled, next = List.filter truthy (flat_all settled).
Proof.
  unfold flatten_pass, bind. intros E.
  destruct (map_call constructors env plugins s) as [[mapped| |] s1];
    try discriminate.
  destruct (promise_all mapped) as [settled|e]; simpl in E; try discriminate.
  inversion E; subst. exists settled. reflexivity.
Qed.

(** Every element of a list that the normalizer returns is truthy, is not an
    array, has no [then] and has no [split]. *)
Lemma flatten_loop_output fuel env plugins (s : state U) out s' :
  flatten_loop constructors fuel env plugins s = (Ok out, s') ->
  Forall (fun v => truthy v = true /\ is_array v = false /\
                   has_then v = false /\ has_split v = false) out.
Proof.
  revert plugins s. induction fuel as [|fuel IH]; intros plugins s E;
    simpl in E; [discriminate|].
  unfold bind in E.
  destruct (flatten_pass constructors env plugins s) as [[next| |] s1] eqn:Ep;
    try discriminate.
  destruct (unsettled next) eqn:Eu; [eapply IH; eassumption|].
  inversion E; subst. destruct (flatten_pass_shape _ _ _ _ _ Ep) as [settled ->].
  unfold unsettled in Eu. rewrite Forall_forall. intros v Hv.
  apply list_elem_of_In in Hv.
  assert (Hsome : has_then v || has_split v = false).
  { destruct (has_then v || has_split v) eqn:Ev; [|reflexivity].
    assert (existsb (fun v => has_then v || has_split v)
              (List.filter truthy (flat_all settled)) = true)
      by (apply existsb_exists; eauto).
    congruence. }
  apply orb_false_elim in Hsome. destruct Hsome as [Ht Hs].
  apply List.filter_In in Hv. destruct Hv as [Hin Htr].
  pose proof (flat_all_no_array settled) as Hna. rewrite Forall_forall in Hna.
  repeat split; try assumption. apply Hna. apply list_elem_of_In. assumption.
Qed.

Lemma map_call_plain env plugins (s : state U) :
  Forall (fun v => is_function v = false) plugins ->
  map_call constructors env plugins s = (Ok plugins, s).
Proof.
  induction 1 as [|p rest Hp _ IH]; [reflexivity|]. simpl.
  rewrite (bind_ok _ _ s p s) by (destruct p; try reflexivity; discriminate).
  rewrite (bind_ok _ _ s rest s IH). reflexivity.
Qed.

Lemma promise_all_plain l :
  Forall (fun v => has_then v = false) l -> promise_all l = Normal l.
Proof.
  induction 1 as [|v l Hv _ IH]; [reflexivity|]. simpl. rewrite IH.
  destruct v; try discriminate; reflexivity.
Qed.

Lemma flat_all_plain l :
  Forall (fun v => is_array v = false) l -> flat_all l = l.
Proof.
  induction 1 as [|v l Hv _ IH]; [reflexivity|].
  rewrite flat_all_cons, IH, (flat_not_array v Hv). reflexivity.
Qed.

(** A pass over values that are all there already calls nothing and only
    flattens and filters. *)
Lemma flatten_pass_static env plugins (s : state U) :
  Forall (fun v => is_function v = false) plugins ->
  Forall (fun v => has_then v = false) plugins ->
  flatten_pass constructors env plugins s =
    (Ok (List.filter truthy (flat_all plugins)), s).
Proof.
  intros Hf Ht. unfold flatten_pass.
  rewrite (bind_ok _ _ s plugins s (map_call_plain env plugins s Hf)).
  rewrite (promise_all_plain plugins Ht). reflexivity.
Qed.

Lemma plain_parts v :
  plain v = true ->
  is_function v = false /\ has_then v = false /\ is_array v = false.
Proof. destruct v; simpl; intros; try discriminate; repeat split. Qed.

(** A list of plain values without a [split] comes back from the normalizer
    after one pass, with the falsy ones removed. *)
Lemma flatten_loop_plain fuel env plugins (s : state U) :
  Forall (fun v => plain v = true) plugins ->
  Forall (fun v => has_split v = false) plugins ->
  flatten_loop constructors (S fuel) env plugins s =
    (Ok (List.filter truthy plugins), s).
Proof.
  intros Hp Hs. simpl.
  assert (Hparts : Forall (fun v => is_function v = false) plugins /\
                   Forall (fun v => has_then v = false) plugins /\
                   Forall (fun v => is_array v = false) plugins).
  { repeat split; (eapply Forall_impl; [exact Hp|]); intros v Hv;
      apply plain_parts in Hv; destruct Hv as [? [? ?]]; assumption. }
  destruct Hparts as [Hf [Ht Ha]].
  rewrite (bind_ok _ _ s _ s (flatten_pass_static env plugins s Hf Ht)).
  rewrite (flat_all_plain plugins Ha).
  assert (Hu : unsettled (List.filter truthy plugins) = false).
  { unfold unsettled. apply not_true_is_false. intros Hex.
    apply existsb_exists in Hex. destruct Hex as [v [Hin Hv]].
    apply List.filter_In in Hin. destruct Hin as [Hin _].
    apply list_elem_of_In in Hin.
    rewrite Forall_forall in Ht, Hs. rewrite (Ht v Hin), (Hs v Hin) in Hv.
    discriminate. }
  rewrite Hu. reflexivity.
Qed.

Lemma is_plugin_plain v :
  is_plugin v = true ->
  plain v = true /\ has_split v = false /\ truthy v = true.
Proof.
  destruct v; simpl; try discriminate. intros H.
  apply negb_true_iff in H. auto.
Qed.

Lemma filter_all_true {A} (p : A -> bool) l :
  Forall (fun x => p x = true) l -> List.filter p l = l.
Proof.
  induction 1 as [|x l Hx _ IH]; [reflexivity|]. simpl. rewrite Hx, IH.
  reflexivity.
Qed.

(** C2, amended: a malformed element that is not a string (a number other
    than zero, or [true]) raises no error in the normalizer.  Among concrete
    plugins it is returned with them, unchanged and in its place. *)
Theorem asyncFlattenIsolatedPlugin_keeps_malformed fuel env (s : state U)
  before v after :
  malformed v = true -> has_split v = false ->
  Forall (fun p => is_plugin p = true) before ->
  Forall (fun p => is_plugin p = true) after ->
  asyncFlattenIsolatedPlugin constructors (S fuel) env
    (VArr (before ++ v :: after)) s = (Ok (before ++ v :: after), s).
Proof.
  intros Hm Hs Hb Ha. unfold asyncFlattenIsolatedPlugin.
  assert (Hall : Forall (fun x => plain x = true /\ has_split x = false /\
                                  truthy x = true) (before ++ v :: after)).
  { apply Forall_app. split; [|constructor].
    - eapply Forall_impl; [exact Hb|]. apply is_plugin_plain.
    - destruct v; simpl in *; try discriminate; auto.
    - eapply Forall_impl; [exact Ha|]. apply is_plugin_plain. }
  rewrite flatten_loop_plain.
  - rewrite filter_all_true; [reflexivity|].
    eapply Forall_impl; [exact Hall|]. intros x [_ [_ Hx]]; exact Hx.
  - eapply Forall_impl; [exact Hall|]. intros x [Hx _]; exact Hx.
  - eapply Forall_impl; [exact Hall|]. intros x [_ [Hx _]]; exact Hx.
Qed.

(** A string that is not empty keeps the loop going for ever: it is truthy
    and it has a [split]. *)
Lemma flatten_loop_string fuel env (s : state U) str :
  str <> EmptyString ->
  flatten_loop constructors fuel env [VStr str] s = (OutOfFuel, s).
Proof.
  intros Hne. induction fuel as [|fuel IH]; [reflexivity|]. simpl.
  rewrite (bind_ok _ _ s [VStr str] s); [exact IH|].
  rewrite flatten_pass_static by (repeat constructor). simpl.
  destruct (String.eqb_spec str EmptyString); [contradiction | reflexivity].
Qed.

(** A top-level list without functions is resolved to itself. *)
Lemma contributions_plain steps fuel env l (s : state U) :
  Forall (fun v => is_function v = false) l ->
  length l < steps ->
  contributions constructors steps fuel env l s = (Ok l, s).
Proof.
  intros Hl. revert steps. induction Hl as [|p rest Hp _ IH]; intros steps Hlen.
  - destruct steps; [simpl in Hlen; lia | reflexivity].
  - destruct steps as [|steps]; [lia|]. simpl in Hlen. cbn [contributions].
    unfold bind.
    replace (entry_plugins constructors fuel env p s) with (@Ok (list value) [p], s)
      by (destruct p; try discriminate; reflexivity).
    rewrite IH by lia. reflexivity.
Qed.

(** C4, amended: the flatten law.  Given [[A, false, [B, null], C]] with
    concrete plugins [A], [B] and [C], the normalizer returns [[A, B, C]];
    and when that list is what the one constructor of the top-level list
    returns, [resolveIsolatedPlugins] resolves to [[A, B, C]].  When the
    list is the top-level list itself, it is resolved to itself: its four
    entries are appended as they are. *)
Theorem flatten_law fuel env (s : state U) A B C e :
  is_plugin A = true -> is_plugin B = true -> is_plugin C = true ->
  asyncFlattenIsolatedPlugin constructors (S fuel) env
    (VArr [A; VBool false; VArr [B; VNull]; C]) s = (Ok [A; B; C], s) /\
  (heap s !! config_plugins env = Some [VFun e] ->
   fst (constructors e env (user s))
     = Normal (VArr [A; VBool false; VArr [B; VNull]; C]) ->
   observe (resolveIsolatedPlugins constructors (S (S fuel)) env s)
     = Resolved [A; B; C]) /\
  (heap s !! config_plugins env = Some [A; VBool false; VArr [B; VNull]; C] ->
   observe (resolveIsolatedPlugins constructors (5 + fuel) env s)
     = Resolved [A; VBool false; VArr [B; VNull]; C]).
Proof.
  intros HA HB HC.
  assert (Hflat : forall n (s' : state U),
            asyncFlattenIsolatedPlugin constructors (S n) env
              (VArr [A; VBool false; VArr [B; VNull]; C]) s'
            = (Ok [A; B; C], s')).
  { intros n s'. unfold asyncFlattenIsolatedPlugin. simpl flatten_loop.
    destruct A as [| | | | |ia fa| | | |]; try discriminate.
    destruct B as [| | | | |ib fb| | | |]; try discriminate.
    destruct C as [| | | | |ic fc| | | |]; try discriminate.
    simpl in HA, HB, HC. apply negb_true_iff in HA, HB, HC.
    pose proof (flatten_pass_static env
                  [VObj ia fa; VBool false; VArr [VObj ib fb; VNull]; VObj ic fc]
                  s' ltac:(repeat constructor) ltac:(repeat constructor))
      as Hpass.
    rewrite (bind_ok _ _ s' _ s' Hpass).
    simpl. unfold unsettled. simpl. rewrite HA, HB, HC. reflexivity. }
  split; [apply Hflat|]. split.
  - intros Hcfg He.
    rewrite (observe_resolve (S (S fuel)) env s _ Hcfg).
    cbn [contributions entry_plugins]. unfold bind.
    rewrite (invoke_returns e env s _ He). cbn [js_await lift ret truthy].
    rewrite Hflat. reflexivity.
  - intros Hcfg.
    rewrite (observe_resolve (5 + fuel) env s _ Hcfg).
    rewrite contributions_plain; [reflexivity | | simpl; lia].
    destruct A, B, C; try discriminate; repeat constructor.
Qed.

(** C5: async nesting.  For the top-level list [[D0, E]], where [D0] is a
    plain plugin, [E] returns a promise of [[D, F]] and [F] returns [[G]],
    the resolution gives [[D0, D, G]]. *)
Theorem async_nesting fuel env (s : state U) D0 D G e f :
  is_plugin D0 = true -> is_plugin D = true -> is_plugin G = true ->
  (forall u, fst (constructors e env u) = Normal (VFulfilled (VArr [D; VFun f]))) ->
  (forall u, fst (constructors f env u) = Normal (VArr [G])) ->
  heap s !! config_plugins env = Some [D0; VFun e] ->
  observe (resolveIsolatedPlugins constructors (S (S (S fuel))) env s)
    = Resolved [D0; D; G].
Proof.
  intros H0 HD HG He Hf Hcfg.
  rewrite (observe_resolve _ env s _ Hcfg).
  destruct D0 as [| | | | |i0 f0| | | |]; try discriminate.
  destruct D as [| | | | |id fd| | | |]; try discriminate.
  destruct G as [| | | | |ig fg| | | |]; try discriminate.
  simpl in H0, HD, HG. apply negb_true_iff in HD, HG.
  cbn [contributions entry_plugins]. unfold bind. cbn [ret].
  rewrite (invoke_returns e env s _ (He _)). cbn [js_await lift ret truthy].
  unfold asyncFlattenIsolatedPlugin. cbn [flatten_loop].
  unfold flatten_pass. cbn [map_call]. unfold bind. cbn [ret].
  rewrite (invoke_returns f env _ _ (Hf _)).
  cbn [promise_all js_await lift ret]. unfold unsettled. simpl.
  rewrite HD, HG. reflexivity.
Qed.

(** C1 on the code: a constructor whose promise is fulfilled with another
    constructor.  The normalizer calls the first, takes the second out of the
    promise, finds neither a [then] nor a [split] on it and returns it: the
    list it returns holds a function, which was never called. *)
Theorem asyncFlattenIsolatedPlugin_returns_function fuel env (s : state U) f g :
  fst (constructors f env (user s)) = Normal (VFulfilled (VFun g)) ->
  exists s',
    asyncFlattenIsolatedPlugin constructors (S fuel) env (VFun f) s
      = (Ok [VFun g], s') /\
    trace s' = trace s ++ [{| callee := f; call_env := env;
                              call_result := Normal (VFulfilled (VFun g)) |}].
Proof.
  intros Hf. eexists. split.
  - unfold asyncFlattenIsolatedPlugin. cbn [flatten_loop].
    erewrite bind_ok.
    2: { unfold flatten_pass. erewrite bind_ok.
         2: { cbn [map_call]. erewrite bind_ok; [|apply invoke_returns; apply Hf].
              erewrite bind_ok; reflexivity. }
         simpl. reflexivity. }
    reflexivity.
  - reflexivity.
Qed.

(** The same without a promise: a function inside a nested array is taken
    out by [flat] after the only [map] that could have called it. *)
Lemma asyncFlattenIsolatedPlugin_returns_nested_function fuel env (s : state U) g :
  asyncFlattenIsolatedPlugin constructors (S fuel) env (VArr [VArr [VFun g]]) s
    = (Ok [VFun g], s).
Proof. reflexivity. Qed.

(** ** More steps change nothing *)

Lemma flatten_loop_more_fuel fuel extra env plugins (s : state U) :
  fst (flatten_loop constructors fuel env plugins s) <> OutOfFuel ->
  flatten_loop constructors (fuel + extra) env plugins s =
  flatten_loop constructors fuel env plugins s.
Proof.
  revert plugins s. induction fuel as [|fuel IH]; intros plugins s Hdone;
    [destruct Hdone; reflexivity|].
  simpl in Hdone |- *. unfold bind in Hdone |- *.
  destruct (flatten_pass constructors env plugins s) as [[next| |] s1];
    try reflexivity.
  destruct (unsettled next); [apply IH; assumption | reflexivity].
Qed.

Lemma entry_plugins_more_fuel fuel extra env plugin (s : state U) :
  fst (entry_plugins constructors fuel env plugin s) <> OutOfFuel ->
  entry_plugins constructors (fuel + extra) env plugin s =
  entry_plugins constructors fuel env plugin s.
Proof.
  destruct plugin; try reflexivity. simpl. unfold bind. intros Hdone.
  destruct (invoke constructors f env s) as [[returned| |] s1]; try reflexivity.
  destruct (lift (js_await returned) s1) as [[isolated| |] s2]; try reflexivity.
  destruct (truthy isolated); [|reflexivity].
  apply flatten_loop_more_fuel. assumption.
Qed.

Lemma contributions_more_fuel steps fuel extra extra' env entries (s : state U) :
  fst (contributions constructors steps fuel env entries s) <> OutOfFuel ->
  contributions constructors (steps + extra) (fuel + extra') env entries s =
  contributions constructors steps fuel env entries s.
Proof.
  revert entries s. induction steps as [|steps IH]; intros entries s Hdone;
    [destruct Hdone; reflexivity|].
  simpl in Hdone |- *. destruct entries as [|p rest]; [reflexivity|].
  unfold bind in Hdone |- *.
  destruct (entry_plugins constructors fuel env p s) as [[xs| |] s1] eqn:Ep.
  - rewrite entry_plugins_more_fuel, Ep by (rewrite Ep; discriminate).
    specialize (IH rest s1).
    destruct (contributions constructors steps fuel env rest s1)
      as [[ys| |] s2]; rewrite IH; try reflexivity; try discriminate.
    destruct Hdone; reflexivity.
  - rewrite entry_plugins_more_fuel, Ep by (rewrite Ep; discriminate).
    reflexivity.
  - destruct Hdone; reflexivity.
Qed.

(** Once [resolveIsolatedPlugins] has returned or thrown within [fuel]
    steps, it does the same within any larger number of steps. *)
Lemma resolveIsolatedPlugins_more_fuel fuel extra env (s : state U) l :
  heap s !! config_plugins env = Some l ->
  observe (resolveIsolatedPlugins constructors fuel env s) <> Unfinished ->
  observe (resolveIsolatedPlugins constructors (fuel + extra) env s) =
  observe (resolveIsolatedPlugins constructors fuel env s).
Proof.
  intros Hcfg. rewrite !(observe_resolve _ env s l Hcfg). intros Hdone.
  rewrite contributions_more_fuel; [reflexivity|].
  intros E. rewrite E in Hdone. apply Hdone. reflexivity.
Qed.

(** ** Falsy elements *)

Lemma prune_all_cons x l :
  prune_all (x :: l) =
    if nullish_or_false x then prune_all l else prune x :: prune_all l.
Proof. unfold prune_all. simpl. destruct (nullish_or_false x); reflexivity. Qed.

Lemma prune_array items : prune (VArr items) = VArr (prune_all items).
Proof. reflexivity. Qed.

Lemma nullish_settle_one x :
  nullish_or_false x = true -> settle_one x = Normal [].
Proof.
  destruct x as [| |[]| | | | | | |]; simpl; intros; try discriminate;
    reflexivity.
Qed.

Lemma filter_flat_prune v :
  List.filter truthy (flat (prune v)) = List.filter truthy (flat v).
Proof.
  induction v using value_nested_ind; try reflexivity.
  rewrite prune_array, !flat_array.
  induction H as [|x l Hx Hl IH]; [reflexivity|].
  rewrite prune_all_cons, flat_all_cons, List.filter_app.
  destruct (nullish_or_false x) eqn:En.
  - rewrite IH. destruct x as [| |[]| | | | | | |]; try discriminate; reflexivity.
  - rewrite flat_all_cons, List.filter_app, Hx, IH. reflexivity.
Qed.

Lemma settle_one_prune x : settle_one (prune x) = settle_one x.
Proof.
  destruct x; try reflexivity. unfold settle_one.
  rewrite prune_array. simpl js_await. rewrite <- prune_array, filter_flat_prune.
  reflexivity.
Qed.

Lemma settle_all_cons x mapped :
  settle_all (x :: mapped) =
    match settle_one x with
    | Normal ys =>
        match settle_all mapped with
        | Normal zs => Normal (ys ++ zs)
        | Abrupt e => Abrupt e
        end
    | Abrupt e => Abrupt e
    end.
Proof.
  unfold settle_all, settle_one. simpl.
  destruct (js_await x) as [y|e]; [|reflexivity].
  destruct (promise_all mapped) as [settled|e]; [|reflexivity].
  rewrite flat_all_cons, List.filter_app. reflexivity.
Qed.

Lemma flatten_pass_settle env plugins (s : state U) :
  flatten_pass constructors env plugins s =
    match map_call constructors env plugins s with
    | (Ok mapped, s1) =>
        match settle_all mapped with
        | Normal next => (Ok next, s1)
        | Abrupt e => (Fail e, s1)
        end
    | (Fail e, s1) => (Fail e, s1)
    | (OutOfFuel, s1) => (OutOfFuel, s1)
    end.
Proof.
  unfold flatten_pass, bind, settle_all.
  destruct (map_call constructors env plugins s) as [[mapped| |] s1];
    try reflexivity.
  destruct (promise_all mapped); reflexivity.
Qed.

Lemma keep_not_function env p (s : state U) :
  is_function p = false ->
  match p with VFun f => invoke constructors f env | _ => ret p end s
    = (Ok p, s).
Proof. destruct p; intros; try discriminate; reflexivity. Qed.

Lemma prune_not_function p : is_function (prune p) = is_function p.
Proof. destruct p; reflexivity. Qed.

Lemma nullish_not_function p : nullish_or_false p = true -> is_function p = false.
Proof. destruct p; intros; try discriminate; reflexivity. Qed.

(** The [map] over the pruned list makes the same calls and ends the same
    way; its result settles to the same list. *)
Lemma map_call_prune env plugins (s : state U) :
  match map_call constructors env plugins s,
        map_call constructors env (prune_all plugins) s with
  | (Ok m1, s1), (Ok m2, s2) => s1 = s2 /\ settle_all m1 = settle_all m2
  | (Fail e1, s1), (Fail e2, s2) => e1 = e2 /\ s1 = s2
  | _, _ => False
  end.
Proof.
  revert s. induction plugins as [|p rest IH]; intros s.
  - simpl. split; reflexivity.
  - rewrite prune_all_cons. destruct (nullish_or_false p) eqn:En.
    + (* a dropped element is not a function and settles to nothing *)
      cbn [map_call]. unfold bind.
      rewrite (keep_not_function env p s (nullish_not_function p En)).
      specialize (IH s).
      destruct (map_call constructors env rest s) as [[m1| |] s1];
        destruct (map_call constructors env (prune_all rest) s) as [[m2| |] s2];
        try contradiction; simpl; [|assumption].
      destruct IH as [-> IH]. split; [reflexivity|].
      rewrite settle_all_cons, (nullish_settle_one p En), IH.
      destruct (settle_all m2); reflexivity.
    + cbn [map_call]. unfold bind. destruct (is_function p) eqn:Ef.
      * (* a function is called in both *)
        destruct p; try discriminate.
        change (prune (VFun f)) with (VFun f). unfold invoke.
        destruct (constructors f env (user s)) as [[x|e] u];
          [|split; reflexivity].
        match goal with |- context [map_call constructors env rest ?s0] =>
          specialize (IH s0);
          destruct (map_call constructors env rest s0) as [[m1| |] s1];
          destruct (map_call constructors env (prune_all rest) s0)
            as [[m2| |] s2]
        end; try contradiction; simpl; [|assumption].
        destruct IH as [-> IH]. split; [reflexivity|].
        rewrite !settle_all_cons, IH. reflexivity.
      * rewrite (keep_not_function env p s Ef).
        rewrite (keep_not_function env (prune p) s)
          by (rewrite prune_not_function; assumption).
        specialize (IH s).
        destruct (map_call constructors env rest s) as [[m1| |] s1];
          destruct (map_call constructors env (prune_all rest) s)
            as [[m2| |] s2];
          try contradiction; simpl; [|assumption].
        destruct IH as [-> IH]. split; [reflexivity|].
        rewrite !settle_all_cons, settle_one_prune, IH. reflexivity.
Qed.

Lemma flatten_pass_prune env plugins (s : state U) :
  flatten_pass constructors env (prune_all plugins) s =
  flatten_pass constructors env plugins s.
Proof.
  rewrite !flatten_pass_settle. pose proof (map_call_prune env plugins s) as H.
  destruct (map_call constructors env plugins s) as [[m1| |] s1];
    destruct (map_call constructors env (prune_all plugins) s) as [[m2| |] s2];
    try contradiction.
  - destruct H as [-> ->]. reflexivity.
  - destruct H as [-> ->]. reflexivity.
Qed.

Lemma asyncFlattenIsolatedPlugin_prune fuel env v (s : state U) :
  asyncFlattenIsolatedPlugin constructors fuel env (prune v) s =
  asyncFlattenIsolatedPlugin constructors fuel env v s.
Proof.
  destruct v; try reflexivity. rewrite prune_array.
  unfold asyncFlattenIsolatedPlugin. destruct fuel as [|fuel]; [reflexivity|].
  simpl. unfold bind. rewrite flatten_pass_prune. reflexivity.
Qed.

Lemma truthy_not_nullish v : truthy v = true -> nullish_or_false v = false.
Proof.
  destruct v as [| |[]| | | | | | |]; simpl; intros; try discriminate;
    reflexivity.
Qed.

(** A falsy element of a resolved list was an entry of the top-level list. *)
Lemma contributions_falsy steps fuel env entries (s : state U) out s' :
  contributions constructors steps fuel env entries s = (Ok out, s') ->
  forall x, In x out -> truthy x = false -> In x entries.
Proof.
  revert entries s out. induction steps as [|steps IH];
    intros entries s out E x Hx Ht; simpl in E; [discriminate|].
  destruct entries as [|p rest]; [inversion E; subst; destruct Hx|].
  unfold bind in E.
  destruct (entry_plugins constructors fuel env p s) as [[xs| |] s1] eqn:Ep;
    try discriminate.
  destruct (contributions constructors steps fuel env rest s1)
    as [[ys| |] s2] eqn:Er; try discriminate.
  inversion E; subst. apply in_app_or in Hx. destruct Hx as [Hx|Hx].
  - left. destruct p; try (inversion Ep; subst; destruct Hx as [<-|[]]; reflexivity).
    exfalso. simpl in Ep. unfold bind in Ep.
    destruct (invoke constructors f env s) as [[returned| |] s0]; try discriminate.
    destruct (js_await returned) as [isolated|e]; simpl in Ep; try discriminate.
    destruct (truthy isolated).
    + apply flatten_loop_output in Ep. rewrite Forall_forall in Ep.
      apply list_elem_of_In in Hx. destruct (Ep x Hx) as [Htrue _]. congruence.
    + inversion Ep; subst. destruct Hx.
  - right. eapply IH; eassumption.
Qed.

(** C3, amended: inside what a constructor returns, [false], [null] and
    [undefined] contribute no element and no slot, at any depth: the
    normalizer gives the same result for a tree and for the tree without
    them, and no list it returns holds one of them.  An entry of the
    top-level list that is not a function is appended as it is: when a
    resolved list holds [false], [null] or [undefined], that value was an
    entry of the top-level list.  A constructor of the top-level list whose
    result is falsy contributes nothing. *)
Theorem falsy_values_contribute_nothing fuel env (s : state U) :
  (forall v,
     asyncFlattenIsolatedPlugin constructors fuel env (prune v) s =
     asyncFlattenIsolatedPlugin constructors fuel env v s) /\
  (forall v out s',
     asyncFlattenIsolatedPlugin constructors fuel env v s = (Ok out, s') ->
     Forall (fun x => nullish_or_false x = false) out) /\
  (forall l out,
     heap s !! config_plugins env = Some l ->
     observe (resolveIsolatedPlugins constructors fuel env s) = Resolved out ->
     forall x, In x out -> nullish_or_false x = true -> In x l) /\
  (forall f returned x,
     heap s !! config_plugins env = Some [VFun f] ->
     fst (constructors f env (user s)) = Normal returned ->
     js_await returned = Normal x -> truthy x = false ->
     2 <= fuel ->
     observe (resolveIsolatedPlugins constructors fuel env s) = Resolved []).
Proof.
  split; [intros v; apply asyncFlattenIsolatedPlugin_prune|]. split; [|split].
  - intros v out s' E. apply flatten_loop_output in E.
    eapply Forall_impl; [exact E|]. intros x [Hx _].
    apply truthy_not_nullish. assumption.
  - intros l out Hcfg Hobs x Hin Hn.
    rewrite (observe_resolve fuel env s l Hcfg) in Hobs.
    destruct (contributions constructors fuel fuel env l s)
      as [[out'| |] s2] eqn:E;
      simpl in Hobs; try discriminate. inversion Hobs; subst out'.
    eapply contributions_falsy; [exact E | exact Hin |].
    destruct x as [| |[]| | | | | | |]; try discriminate; reflexivity.
  - intros f returned x Hcfg Hf Hx Hfalsy Hfuel.
    rewrite (observe_resolve fuel env s _ Hcfg).
    destruct fuel as [|[|fuel]]; try lia.
    cbn [contributions entry_plugins]. unfold bind.
    rewrite (invoke_returns f env s _ Hf), Hx. cbn [lift ret].
    rewrite Hfalsy. reflexivity.
Qed.

End Facts.

(** * The facts at work on the small configuration *)

Lemma resolveIsolatedPlugins_frame_witness :
  let s := Example.initial [Example.D0; VFun 0] in
  heap s !! config_plugins Example.client = Some [Example.D0; VFun 0] /\
  heap (snd (resolveIsolatedPlugins Example.constructors 5 Example.client s))
    !! config_plugins Example.client = Some [Example.D0; VFun 0].
Proof.
  split; [reflexivity|].
  exact (proj1 (resolveIsolatedPlugins_frame Example.constructors 5
                  Example.client (Example.initial [Example.D0; VFun 0])
                  [Example.D0; VFun 0] eq_refl)).
Defined.

Lemma resolveIsolatedPlugins_twice_witness :
  let first := resolveIsolatedPlugins Example.constructors 5 Example.client
                 (Example.initial [Example.D0; VFun 0]) in
  pure_constructors Example.constructors /\
  observe (resolveIsolatedPlugins Example.constructors 5 Example.client
             (snd first)) = observe first.
Proof.
  assert (Hpure : pure_constructors Example.constructors)
    by (intros f env [] []; reflexivity).
  split; [exact Hpure|].
  exact (proj1 (resolveIsolatedPlugins_twice Example.constructors 5
                  Example.client (Example.initial [Example.D0; VFun 0])
                  [Example.D0; VFun 0] Hpure eq_refl)).
Defined.

Lemma resolveIsolatedPlugins_fails_witness :
  let s := Example.initial [Example.D0; VFun 7] in
  heap s !! config_plugins Example.client = Some [Example.D0; VFun 7] /\
  exists e,
    fst (resolveIsolatedPlugins Example.constructors 5 Example.client s)
      = Fail e /\
    observe (resolveIsolatedPlugins Example.constructors 5 Example.client s)
      = Rejected e.
Proof.
  split; [reflexivity|].
  destruct (resolveIsolatedPlugins_fails Example.constructors 5 Example.client
              (Example.initial [Example.D0; VFun 7]) [Example.D0; VFun 7]
              eq_refl) as [calls [Htrace Hfails]].
  apply Hfails. vm_compute in Htrace. rewrite <- Htrace. reflexivity.
Defined.

Lemma resolveIsolatedPlugins_calls_witness :
  let s := Example.initial [Example.D0; VFun 0] in
  heap s !! config_plugins Example.client = Some [Example.D0; VFun 0] /\
  exists calls,
    trace (snd (resolveIsolatedPlugins Example.constructors 5 Example.client s))
      = trace s ++ calls /\
    Forall (fun c => call_env c = Example.client) calls /\
    calls_to 1 calls
      <= occurrences_in 1 [Example.D0; VFun 0] + returned_occurrences 1 calls /\
    (occurrences_in 1 [Example.D0; VFun 0] <= 1 ->
     returned_occurrences 1 calls = 0 -> calls_to 1 calls <= 1).
Proof.
  split; [reflexivity|].
  exact (resolveIsolatedPlugins_calls Example.constructors 1 5 Example.client
           (Example.initial [Example.D0; VFun 0]) [Example.D0; VFun 0]
           eq_refl).
Defined.

Lemma asyncFlattenIsolatedPlugin_keeps_malformed_witness :
  malformed (VNum 42) = true /\ has_split (VNum 42) = false /\
  asyncFlattenIsolatedPlugin Example.constructors 1 Example.client
    (VArr ([Example.A] ++ VNum 42 :: [Example.B])) (Example.initial [])
  = (Ok ([Example.A] ++ VNum 42 :: [Example.B]), Example.initial []).
Proof.
  split; [reflexivity|]. split; [reflexivity|].
  apply (asyncFlattenIsolatedPlugin_keeps_malformed Example.constructors 0
           Example.client (Example.initial []) [Example.A] (VNum 42)
           [Example.B]);
    try reflexivity; repeat constructor.
Defined.

Lemma falsy_values_contribute_nothing_witness :
  let s := Example.initial [VFun 4] in
  heap s !! config_plugins Example.client = Some [VFun 4] /\
  observe (resolveIsolatedPlugins Example.constructors 5 Example.client s)
    = Resolved [Example.A; Example.B; Example.C] /\
  forall x, In x [Example.A; Example.B; Example.C] ->
            nullish_or_false x = true -> In x [VFun 4].
Proof.
  split; [reflexivity|]. split; [reflexivity|].
  apply (proj1 (proj2 (proj2 (falsy_values_contribute_nothing
                                Example.constructors 5 Example.client
                                (Example.initial [VFun 4]))))
           [VFun 4] [Example.A; Example.B; Example.C]);
    reflexivity.
Defined.

Lemma flatten_law_witness :
  is_plugin Example.A = true /\ is_plugin Example.B = true /\
  is_plugin Example.C = true /\
  observe (resolveIsolatedPlugins Example.constructors 2 Example.client
             (Example.initial [VFun 4]))
  = Resolved [Example.A; Example.B; Example.C].
Proof.
  split; [reflexivity|]. split; [reflexivity|]. split; [reflexivity|].
  apply (proj1 (proj2 (flatten_law Example.constructors 0 Example.client
                         (Example.initial [VFun 4])
                         Example.A Example.B Example.C 4
                         eq_refl eq_refl eq_refl)));
    reflexivity.
Defined.

Lemma async_nesting_witness :
  heap (Example.initial [Example.D0; VFun 0]) !! config_plugins Example.client
    = Some [Example.D0; VFun 0] /\
  observe (resolveIsolatedPlugins Example.constructors 3 Example.client
             (Example.initial [Example.D0; VFun 0]))
  = Resolved [Example.D0; Example.D; Example.G].
Proof.
  split; [reflexivity|].
  apply (async_nesting Example.constructors 0 Example.client
           (Example.initial [Example.D0; VFun 0])
           Example.D0 Example.D Example.G 0 1);
    try reflexivity; intros []; reflexivity.
Defined.

Lemma asyncFlattenIsolatedPlugin_returns_function_witness :
  fst (Example.constructors 2 Example.client tt) = Normal (VFulfilled (VFun 3)) /\
  exists s',
    asyncFlattenIsolatedPlugin Example.constructors 1 Example.client (VFun 2)
      (Example.initial []) = (Ok [VFun 3], s') /\
    trace s' = [{| callee := 2; call_env := Example.client;
                   call_result := Normal (VFulfilled (VFun 3)) |}].
Proof.
  split; [reflexivity|].
  apply (asyncFlattenIsolatedPlugin_returns_function Example.constructors 0
           Example.client (Example.initial []) 2 3).
  reflexivity.
Defined.


(** Without purity the second resolution need not give what the first
    gave. *)
Lemma counting_constructor_differs :
  let first := resolveIsolatedPlugins Example.counting 3 Example.client
                 Example.counting_initial in
  observe first = Resolved [Example.plugin 0 "counted"] /\
  observe (resolveIsolatedPlugins Example.counting 3 Example.client (snd first))
    = Resolved [Example.plugin 1 "counted"].
Proof. split; reflexivity. Qed.

(** The constructor that throws does fail the resolution, after [D0] had been
    collected. *)
Lemma throwing_constructor_rejects :
  observe (resolveIsolatedPlugins Example.constructors 5 Example.client
             (Example.initial [Example.D0; VFun 7])) = Rejected (VStr "boom").
Proof. reflexivity. Qed.

(** A resolved list with a function in it: the top-level constructor [6]
    returns [[[3]]], and the constructor [3] is returned, not called. *)
Lemma resolved_list_with_function :
  observe (resolveIsolatedPlugins Example.constructors 3 Example.client
             (Example.initial [VFun 6])) = Resolved [VFun 3] /\
  calls_to 3 (trace (snd (resolveIsolatedPlugins Example.constructors 3
                            Example.client (Example.initial [VFun 6])))) = 0.
Proof. split; reflexivity. Qed.

(** C2 as stated fails: the constructor [5] returns the number 42, which is
    malformed, and the resolution ends well, with 42 in the list. *)
Lemma malformed_number_is_resolved :
  malformed (VNum 42) = true /\
  observe (resolveIsolatedPlugins Example.constructors 3 Example.client
             (Example.initial [VFun 5])) = Resolved [VNum 42] /\
  ~ exists e,
      observe (resolveIsolatedPlugins Example.constructors 3 Example.client
                 (Example.initial [VFun 5])) = Rejected e.
Proof.
  split; [reflexivity|]. split; [reflexivity|]. intros [e He]. discriminate.
Qed.

(** C3 as stated fails at the top level: [false] and [null] in the top-level
    list are in the resolved list. *)
Lemma top_level_falsy_is_kept :
  exists out,
    observe (resolveIsolatedPlugins Example.constructors 4 Example.client
               (Example.initial [Example.A; VBool false; VNull]))
    = Resolved out /\
    out = [Example.A; VBool false; VNull] /\
    ~ Forall (fun x => nullish_or_false x = false) out.
Proof.
  eexists. split; [reflexivity|]. split; [reflexivity|]. intros Hall.
  inversion Hall as [|x1 l1 _ Hrest]; subst.
  inversion Hrest as [|x2 l2 Hfalse _]; subst. discriminate.
Qed.

(** C4 as stated fails when the list is the top-level list itself: the
    entries that are not functions are appended as they are, [false] and the
    inner array among them. *)
Lemma top_level_list_is_not_flattened :
  observe (resolveIsolatedPlugins Example.constructors 5 Example.client
             (Example.initial
                [Example.A; VBool false; VArr [Example.B; VNull]; Example.C]))
    = Resolved [Example.A; VBool false; VArr [Example.B; VNull]; Example.C] /\
  observe (resolveIsolatedPlugins Example.constructors 5 Example.client
             (Example.initial
                [Example.A; VBool false; VArr [Example.B; VNull]; Example.C]))
    <> Resolved [Example.A; Example.B; Example.C].
Proof. split; [reflexivity | discriminate]. Qed.

(** C8 as stated fails: a constructor that is listed twice is called twice,
    with the same environment. *)
Lemma listed_twice_called_twice :
  occurrences_in 3 [VFun 3; VFun 3] = 2 /\
  calls_to 3 (trace (snd (resolveIsolatedPlugins Example.constructors 4
                            Example.client (Example.initial [VFun 3; VFun 3]))))
  = 2 /\
  ~ calls_to 3 (trace (snd (resolveIsolatedPlugins Example.constructors 4
                              Example.client
                              (Example.initial [VFun 3; VFun 3]))))
    <= 1.
Proof.
  split; [reflexivity|]. split; [reflexivity|]. vm_compute. lia.
Qed.

(** * More of what the two functions do *)

Section Coverage.

Context {U : Type}.
Variable constructors : fn_id -> PluginEnvironment -> U -> completion value * U.

(** ** What a resolved list is made of *)

Lemma contributions_elements steps fuel env entries (s : state U) out s' :
  contributions constructors steps fuel env entries s = (Ok out, s') ->
  Forall (fun x =>
            (In x entries /\ is_function x = false) \/
            (truthy x = true /\ is_array x = false /\
             has_then x = false /\ has_split x = false)) out.
Proof.
  revert entries s out. induction steps as [|steps IH];
    intros entries s out E; simpl in E; [discriminate|].
  destruct entries as [|p rest]; [inversion E; constructor|].
  unfold bind in E.
  destruct (entry_plugins constructors fuel env p s) as [[xs| |] s1] eqn:Ep;
    try discriminate.
  destruct (contributions constructors steps fuel env rest s1)
    as [[ys| |] s2] eqn:Er; try discriminate.
  inversion E; subst. apply Forall_app. split.
  - destruct p;
      try (inversion Ep; subst; constructor; [|constructor];
           left; split; [left; reflexivity | reflexivity]).
    simpl in Ep. unfold bind in Ep.
    destruct (invoke constructors f env s) as [[returned| |] s0];
      try discriminate.
    destruct (js_await returned) as [isolated|e]; simpl in Ep;
      try discriminate.
    destruct (truthy isolated).
    + apply flatten_loop_output in Ep.
      eapply Forall_impl; [exact Ep|]. intros x Hx. right. exact Hx.
    + inversion Ep; subst. constructor.
  - eapply Forall_impl; [exact (IH _ _ _ Er)|].
    intros x [[Hin Hf]|Hx]; [left; split; [right; assumption | assumption]
                            | right; assumption].
Qed.

(** X1: what is in a list that [asyncFlattenIsolatedPlugin] returns is
    truthy, is not an array and has neither a [then] nor a [split]; and what
    is in a list that [resolveIsolatedPlugins] resolves to is either such a
    value or an entry of the top-level list that is not a function. *)
Theorem resolved_list_elements fuel env (s : state U) :
  (forall v out s',
     asyncFlattenIsolatedPlugin constructors fuel env v s = (Ok out, s') ->
     Forall (fun x => truthy x = true /\ is_array x = false /\
                      has_then x = false /\ has_split x = false) out) /\
  (forall l out,
     heap s !! config_plugins env = Some l ->
     observe (resolveIsolatedPlugins constructors fuel env s) = Resolved out ->
     Forall (fun x =>
               (In x l /\ is_function x = false) \/
               (truthy x = true /\ is_array x = false /\
                has_then x = false /\ has_split x = false)) out).
Proof.
  split.
  - intros v out s' E. apply flatten_loop_output in E. exact E.
  - intros l out Hcfg Hobs.
    rewrite (observe_resolve constructors fuel env s l Hcfg) in Hobs.
    destruct (contributions constructors fuel fuel env l s)
      as [[out'| |] s2] eqn:E; simpl in Hobs; try discriminate.
    inversion Hobs; subst out'. eapply contributions_elements. exact E.
Qed.

(** ** Elements with a [split] *)

Lemma filter_plain l :
  Forall (fun v => plain v = true) l ->
  Forall (fun v => plain v = true) (List.filter truthy l).
Proof.
  intros H. rewrite Forall_forall in H |- *. intros v Hv.
  apply list_elem_of_In in Hv. apply List.filter_In in Hv.
  apply H. apply list_elem_of_In. tauto.
Qed.

Lemma flatten_pass_plain env l (s : state U) :
  Forall (fun v => plain v = true) l ->
  flatten_pass constructors env l s = (Ok (List.filter truthy l), s).
Proof.
  intros Hp.
  assert (Hparts : Forall (fun v => is_function v = false) l /\
                   Forall (fun v => has_then v = false) l /\
                   Forall (fun v => is_array v = false) l).
  { repeat split; (eapply Forall_impl; [exact Hp|]); intros v Hv;
      apply plain_parts in Hv; destruct Hv as [? [? ?]]; assumption. }
  destruct Hparts as [Hf [Ht Ha]].
  rewrite (flatten_pass_static constructors env l s Hf Ht).
  rewrite (flat_all_plain l Ha). reflexivity.
Qed.

Lemma flatten_loop_spins fuel env l (s : state U) v :
  Forall (fun x => plain x = true) l ->
  In v l -> truthy v = true -> has_split v = true ->
  flatten_loop constructors fuel env l s = (OutOfFuel, s).
Proof.
  revert l. induction fuel as [|fuel IH]; intros l Hp Hin Ht Hs;
    [reflexivity|].
  simpl. unfold bind. rewrite (flatten_pass_plain env l s Hp).
  assert (Hin' : In v (List.filter truthy l))
    by (apply List.filter_In; split; assumption).
  assert (Hu : unsettled (List.filter truthy l) = true).
  { unfold unsettled. apply existsb_exists. exists v.
    split; [assumption|]. rewrite Hs. apply orb_true_r. }
  rewrite Hu. apply IH; [apply filter_plain; assumption | assumption..].
Qed.

Lemma contributions_spins steps fuel env before f after (s : state U)
  returned v :
  Forall (fun x => is_function x = false) before ->
  fst (constructors f env (user s)) = Normal returned ->
  js_await returned = Normal v ->
  plain v = true -> truthy v = true -> has_split v = true ->
  fst (contributions constructors steps fuel env (before ++ VFun f :: after) s)
    = OutOfFuel.
Proof.
  intros Hb Hf Hv Hp Ht Hs. revert steps.
  induction Hb as [|p rest Hp' _ IH]; intros steps.
  - destruct steps as [|steps]; [reflexivity|].
    simpl. unfold bind. rewrite (invoke_returns constructors f env s _ Hf), Hv.
    cbn [lift ret]. rewrite Ht. unfold asyncFlattenIsolatedPlugin.
    replace (match v with VArr items => items | _ => [v] end) with [v]
      by (destruct v; try reflexivity; discriminate).
    rewrite (flatten_loop_spins fuel env [v] _ v);
      [reflexivity | repeat constructor; assumption | left; reflexivity
      | assumption | assumption].
  - destruct steps as [|steps]; [reflexivity|].
    simpl. unfold bind.
    replace (entry_plugins constructors fuel env p s)
      with (@Ok (list value) [p], s)
      by (destruct p; try discriminate; reflexivity).
    specialize (IH steps).
    destruct (contributions constructors steps fuel env
                (rest ++ VFun f :: after) s) as [[ys| |] s2];
      simpl in IH; try discriminate. reflexivity.
Qed.

(** X2: a truthy element with a [split], such as a string that is not empty,
    keeps the loop of [asyncFlattenIsolatedPlugin] going for ever: among
    values that are there already the call neither returns nor throws,
    however many passes it is given.  A top-level constructor that returns
    such a value, after entries that are not functions, does the same to
    [resolveIsolatedPlugins]. *)
Theorem split_element_never_settles fuel env (s : state U) :
  (forall l v,
     Forall (fun x => plain x = true) l ->
     In v l -> truthy v = true -> has_split v = true ->
     asyncFlattenIsolatedPlugin constructors fuel env (VArr l) s
       = (OutOfFuel, s)) /\
  (forall before f after returned v,
     heap s !! config_plugins env = Some (before ++ VFun f :: after) ->
     Forall (fun x => is_function x = false) before ->
     fst (constructors f env (user s)) = Normal returned ->
     js_await returned = Normal v ->
     plain v = true -> truthy v = true -> has_split v = true ->
     observe (resolveIsolatedPlugins constructors fuel env s) = Unfinished).
Proof.
  split.
  - intros l v Hp Hin Ht Hs. unfold asyncFlattenIsolatedPlugin.
    eapply flatten_loop_spins; eassumption.
  - intros before f after returned v Hcfg Hb Hf Hv Hp Ht Hs.
    rewrite (observe_resolve constructors fuel env s _ Hcfg).
    rewrite (contributions_spins fuel fuel env before f after s returned v);
      try assumption. reflexivity.
Qed.

(** ** Normalizing what is normalized *)

(** X3: a list that [asyncFlattenIsolatedPlugin] has returned, when it holds
    no function, is returned as it is by a further call, after one pass and
    without any constructor call. *)
Theorem asyncFlattenIsolatedPlugin_idempotent fuel more env v
  (s s0 : state U) out s' :
  asyncFlattenIsolatedPlugin constructors fuel env v s = (Ok out, s') ->
  Forall (fun x => is_function x = false) out ->
  asyncFlattenIsolatedPlugin constructors (S more) env (VArr out) s0
    = (Ok out, s0).
Proof.
  intros E Hf. apply flatten_loop_output in E.
  unfold asyncFlattenIsolatedPlugin. rewrite flatten_loop_plain.
  - rewrite filter_all_true; [reflexivity|].
    eapply Forall_impl; [exact E|]. intros x [Hx _]. exact Hx.
  - rewrite Forall_forall in E, Hf |- *. intros x Hx.
    destruct (E x Hx) as [_ [Ha [Ht _]]]. unfold plain.
    rewrite (Hf x Hx), Ha, Ht. reflexivity.
  - eapply Forall_impl; [exact E|]. intros x [_ [_ [_ Hx]]]. exact Hx.
Qed.

(** ** Trees of arrays and promises *)

Lemma leaves_in_cons x l : leaves_in (x :: l) = leaves x ++ leaves_in l.
Proof. reflexivity. Qed.

Lemma leaves_in_app l1 l2 : leaves_in (l1 ++ l2) = leaves_in l1 ++ leaves_in l2.
Proof.
  induction l1 as [|x l1 IH]; [reflexivity|].
  rewrite <- app_comm_cons, !leaves_in_cons, IH. apply app_assoc.
Qed.

Lemma promise_depth_in_cons x l :
  promise_depth_in (x :: l) = Nat.max (promise_depth x) (promise_depth_in l).
Proof. reflexivity. Qed.

Lemma promise_depth_in_app l1 l2 :
  promise_depth_in (l1 ++ l2)
    = Nat.max (promise_depth_in l1) (promise_depth_in l2).
Proof.
  induction l1 as [|x l1 IH]; [reflexivity|].
  rewrite <- app_comm_cons, !promise_depth_in_cons, IH. apply Nat.max_assoc.
Qed.

Lemma leaves_awaited v : leaves (awaited v) = leaves v.
Proof. induction v using value_nested_ind; try reflexivity. assumption. Qed.

Lemma promise_depth_awaited v :
  promise_depth (awaited v) <= promise_depth v /\
  (is_array v = false -> promise_depth (awaited v) <= pred (promise_depth v)).
Proof.
  induction v using value_nested_ind; simpl;
    split; try lia; intros; lia.
Qed.

Lemma awaited_not_fulfilled v x : awaited v <> VFulfilled x.
Proof. induction v using value_nested_ind; simpl; try discriminate. assumption. Qed.

Lemma js_await_awaited v :
  js_await v = match awaited v with
               | VRejected e => Abrupt e
               | x => Normal x
               end.
Proof.
  induction v using value_nested_ind; try reflexivity. simpl. assumption.
Qed.

Lemma awaited_rejected_leaf v e :
  awaited v = VRejected e -> In (VRejected e) (leaves v).
Proof.
  intros E. rewrite <- leaves_awaited, E. left. reflexivity.
Qed.

Lemma leaves_flat v : leaves_in (flat v) = leaves v.
Proof.
  induction v using value_nested_ind;
    try (unfold leaves_in; simpl; rewrite ?app_nil_r; reflexivity).
  rewrite flat_array. change (leaves (VArr items)) with (leaves_in items).
  induction H as [|x l Hx Hl IH]; [reflexivity|].
  rewrite flat_all_cons, leaves_in_app, leaves_in_cons, Hx, IH. reflexivity.
Qed.

Lemma promise_depth_flat v : promise_depth_in (flat v) = promise_depth v.
Proof.
  induction v using value_nested_ind;
    try (unfold promise_depth_in; simpl; lia).
  rewrite flat_array.
  change (promise_depth (VArr items)) with (promise_depth_in items).
  induction H as [|x l Hx Hl IH]; [reflexivity|].
  rewrite flat_all_cons, promise_depth_in_app, promise_depth_in_cons, Hx, IH.
  reflexivity.
Qed.

Lemma falsy_is_leaf x : truthy x = false -> leaves x = [x] /\ promise_depth x = 0.
Proof. destruct x; simpl; intros; try discriminate; split; reflexivity. Qed.

Lemma leaves_filter_truthy l :
  List.filter truthy (leaves_in (List.filter truthy l))
    = List.filter truthy (leaves_in l).
Proof.
  induction l as [|x l IH]; [reflexivity|]. simpl List.filter.
  destruct (truthy x) eqn:Ex.
  - rewrite !leaves_in_cons, !List.filter_app, IH. reflexivity.
  - rewrite leaves_in_cons, List.filter_app, IH.
    destruct (falsy_is_leaf x Ex) as [-> _]. simpl. rewrite Ex. reflexivity.
Qed.

Lemma leaves_filter_Forall (P : value -> Prop) l :
  Forall P (leaves_in l) -> Forall P (leaves_in (List.filter truthy l)).
Proof.
  induction l as [|x l IH]; [trivial|]. rewrite leaves_in_cons.
  intros H. apply Forall_app in H. destruct H as [Hx Hl]. simpl List.filter.
  destruct (truthy x); [|apply IH; assumption].
  rewrite leaves_in_cons. apply Forall_app. split; [assumption | apply IH; assumption].
Qed.

Lemma promise_depth_filter l :
  promise_depth_in (List.filter truthy l) <= promise_depth_in l.
Proof.
  induction l as [|x l IH]; [reflexivity|]. simpl List.filter.
  destruct (truthy x); rewrite !promise_depth_in_cons; lia.
Qed.

Lemma leaves_map_awaited l : leaves_in (map awaited l) = leaves_in l.
Proof.
  induction l as [|x l IH]; [reflexivity|].
  simpl map. rewrite !leaves_in_cons, leaves_awaited, IH. reflexivity.
Qed.

Lemma promise_depth_map_awaited l :
  promise_depth_in (map awaited l) <= promise_depth_in l /\
  (Forall (fun x => is_array x = false) l ->
   promise_depth_in (map awaited l) <= pred (promise_depth_in l)).
Proof.
  induction l as [|x l [IH1 IH2]]; [split; [reflexivity | intros; reflexivity]|].
  simpl map. rewrite !promise_depth_in_cons.
  destruct (promise_depth_awaited x) as [H1 H2]. split; [lia|].
  intros Hall. inversion Hall as [|y l' Hx Hl]; subst.
  specialize (H2 Hx). specialize (IH2 Hl). lia.
Qed.

Lemma leaves_flat_all l : leaves_in (flat_all l) = leaves_in l.
Proof. apply (leaves_flat (VArr l)). Qed.

Lemma promise_depth_flat_all l : promise_depth_in (flat_all l) = promise_depth_in l.
Proof. apply (promise_depth_flat (VArr l)). Qed.

Lemma promise_all_awaited l :
  match promise_all l with
  | Normal xs => xs = map awaited l
  | Abrupt e => exists v, In v l /\ awaited v = VRejected e
  end.
Proof.
  induction l as [|v l IH]; [reflexivity|].
  cbn [promise_all map]. rewrite js_await_awaited.
  destruct (awaited v) eqn:Ev;
    try (destruct (promise_all l) as [xs|e];
         [rewrite IH; reflexivity
         | destruct IH as [w [Hw Ew]]; exists w;
           split; [right; assumption | assumption]]).
  exists v. split; [left; reflexivity | assumption].
Qed.

Lemma inert_leaves_not_function l :
  Forall (fun x => inert_leaf x = true) (leaves_in l) ->
  Forall (fun x => is_function x = false) l.
Proof.
  induction l as [|x l IH]; [constructor|]. rewrite leaves_in_cons.
  intros H. apply Forall_app in H. destruct H as [Hx Hl].
  constructor; [|apply IH; assumption].
  destruct x; try reflexivity. inversion Hx; subst. discriminate.
Qed.

(** One pass over a tree without functions: it fails with the reason of a
    rejected leaf, or it gives a list without arrays that has the same truthy
    leaves and is no deeper, and less deep when there was no array. *)
Lemma flatten_pass_tree env l (s : state U) :
  Forall (fun x => inert_leaf x = true) (leaves_in l) ->
  (exists e, flatten_pass constructors env l s = (Fail e, s) /\
             In (VRejected e) (leaves_in l)) \/
  (exists next,
     flatten_pass constructors env l s = (Ok next, s) /\
     next = List.filter truthy (flat_all (map awaited l)) /\
     Forall (fun x => is_array x = false) next /\
     Forall (fun x => truthy x = true) next /\
     Forall (fun x => inert_leaf x = true) (leaves_in next) /\
     List.filter truthy (leaves_in next) = List.filter truthy (leaves_in l) /\
     promise_depth_in next <= promise_depth_in l /\
     (Forall (fun x => is_array x = false) l ->
      promise_depth_in next <= pred (promise_depth_in l))).
Proof.
  intros Hq. pose proof (inert_leaves_not_function l Hq) as Hf.
  unfold flatten_pass. rewrite (bind_ok _ _ s l s (map_call_plain constructors env l s Hf)).
  pose proof (promise_all_awaited l) as Hp.
  destruct (promise_all l) as [xs|e].
  - right. subst xs. eexists. split; [reflexivity|]. split; [reflexivity|].
    split; [|split; [|split; [|split; [|split]]]].
    + pose proof (flat_all_no_array (map awaited l)) as Ha.
      rewrite Forall_forall in Ha |- *. intros x Hx.
      apply list_elem_of_In in Hx. apply List.filter_In in Hx.
      apply Ha. apply list_elem_of_In. tauto.
    + rewrite Forall_forall. intros x Hx.
      apply list_elem_of_In in Hx. apply List.filter_In in Hx. tauto.
    + apply leaves_filter_Forall.
      rewrite leaves_flat_all, leaves_map_awaited. assumption.
    + rewrite leaves_filter_truthy, leaves_flat_all, leaves_map_awaited.
      reflexivity.
    + etransitivity; [apply promise_depth_filter|].
      rewrite promise_depth_flat_all. apply promise_depth_map_awaited.
    + intros Ha. etransitivity; [apply promise_depth_filter|].
      rewrite promise_depth_flat_all. apply promise_depth_map_awaited.
      assumption.
  - left. exists e. split; [reflexivity|].
    destruct Hp as [v [Hv Ev]]. apply awaited_rejected_leaf in Ev.
    clear -Hv Ev. induction l as [|x l IH]; [destruct Hv|].
    rewrite leaves_in_cons. apply in_or_app.
    destruct Hv as [->|Hv]; [left; assumption | right; apply IH; assumption].
Qed.

(** A list without arrays and without promises is its own list of leaves. *)
Lemma leaves_in_settled l :
  Forall (fun x => is_array x = false) l ->
  Forall (fun x => has_then x = false) l ->
  leaves_in l = l.
Proof.
  induction 1 as [|x l Hx _ IH]; intros Ht; [reflexivity|].
  inversion Ht as [|y l' Hxt Hlt]; subst.
  rewrite leaves_in_cons, (IH Hlt).
  destruct x; try discriminate; reflexivity.
Qed.

Lemma unsettled_false l :
  unsettled l = false ->
  Forall (fun x => has_then x = false) l /\
  Forall (fun x => has_split x = false) l.
Proof.
  unfold unsettled. intros Hu. split; rewrite Forall_forall; intros x Hx;
    apply list_elem_of_In in Hx;
    (destruct (has_then x || has_split x) eqn:E;
     [assert (existsb (fun v => has_then v || has_split v) l = true)
        by (apply existsb_exists; eauto); congruence
     | apply orb_false_elim in E; tauto]).
Qed.

(** When the loop goes on over a list without arrays whose leaves are inert,
    an element of the list is a promise. *)
Lemma unsettled_promise l :
  Forall (fun x => is_array x = false) l ->
  Forall (fun x => inert_leaf x = true) (leaves_in l) ->
  unsettled l = true ->
  exists x, In x l /\ has_then x = true.
Proof.
  intros Ha Hq Hu. apply existsb_exists in Hu. destruct Hu as [x [Hin Hx]].
  exists x. split; [assumption|].
  destruct (has_then x) eqn:Et; [reflexivity|]. simpl in Hx. exfalso.
  assert (Hleaf : In x (leaves_in l)).
  { clear -Hin Et Hx. induction l as [|y l IH]; [destruct Hin|].
    rewrite leaves_in_cons. apply in_or_app.
    destruct Hin as [->|Hin]; [left | right; apply IH; assumption].
    destruct x; try discriminate; left; reflexivity. }
  rewrite Forall_forall in Hq. apply list_elem_of_In in Hleaf.
  specialize (Hq x Hleaf). unfold inert_leaf in Hq. rewrite Hx in Hq.
  rewrite andb_false_r in Hq. discriminate.
Qed.

Lemma promise_element_depth l x :
  In x l -> has_then x = true ->
  1 <= promise_depth_in l \/ exists e, In (VRejected e) (leaves_in l).
Proof.
  intros Hin Ht. induction l as [|y l IH]; [destruct Hin|].
  rewrite promise_depth_in_cons, leaves_in_cons. destruct Hin as [->|Hin].
  - destruct x; try discriminate.
    + left. simpl. lia.
    + right. exists x. apply in_or_app. left. left. reflexivity.
  - destruct (IH Hin) as [H|[e He]]; [left; lia|].
    right. exists e. apply in_or_app. right. assumption.
Qed.

Lemma has_then_truthy x : has_then x = true -> truthy x = true.
Proof. destruct x; simpl; intros; try discriminate; reflexivity. Qed.

Lemma truthy_leaves_transfer (P : value -> Prop) a b :
  List.filter truthy (leaves_in a) = List.filter truthy (leaves_in b) ->
  forall x, truthy x = true -> In x (leaves_in a) -> In x (leaves_in b).
Proof.
  intros E x Ht Hin.
  assert (H : In x (List.filter truthy (leaves_in a)))
    by (apply List.filter_In; split; assumption).
  rewrite E in H. apply List.filter_In in H. tauto.
Qed.

Lemma no_promise_leaves_transfer a b :
  List.filter truthy (leaves_in a) = List.filter truthy (leaves_in b) ->
  Forall (fun x => has_then x = false) (leaves_in b) ->
  Forall (fun x => has_then x = false) (leaves_in a).
Proof.
  intros E Hb. rewrite Forall_forall in Hb |- *. intros x Hx.
  destruct (has_then x) eqn:Et; [|reflexivity].
  apply list_elem_of_In in Hx.
  apply (truthy_leaves_transfer (fun _ => True) a b E x
           (has_then_truthy x Et)) in Hx.
  apply list_elem_of_In in Hx. rewrite (Hb x Hx) in Et. discriminate.
Qed.

(** The list that ends the loop is the list of the truthy leaves. *)
Lemma settled_list_is_leaves l next :
  Forall (fun x => is_array x = false) next ->
  Forall (fun x => truthy x = true) next ->
  List.filter truthy (leaves_in next) = List.filter truthy (leaves_in l) ->
  unsettled next = false ->
  next = List.filter truthy (leaves_in l).
Proof.
  intros Ha Ht E Hu. destruct (unsettled_false next Hu) as [Hthen _].
  rewrite <- E, (leaves_in_settled next Ha Hthen), (filter_all_true _ _ Ht).
  reflexivity.
Qed.

Lemma no_rejected_leaf l e :
  Forall (fun x => has_then x = false) (leaves_in l) ->
  In (VRejected e) (leaves_in l) -> False.
Proof.
  intros H Hin. rewrite Forall_forall in H. apply list_elem_of_In in Hin.
  specialize (H _ Hin). discriminate.
Qed.

Lemma flatten_loop_tree_flat n extra env l (s : state U) :
  Forall (fun x => is_array x = false) l ->
  Forall (fun x => inert_leaf x = true) (leaves_in l) ->
  Forall (fun x => has_then x = false) (leaves_in l) ->
  promise_depth_in l <= S n ->
  flatten_loop constructors (S n + extra) env l s
    = (Ok (List.filter truthy (leaves_in l)), s).
Proof.
  revert l. induction n as [|n IH]; intros l Ha Hq Hn Hd;
    rewrite Nat.add_succ_l; cbn [flatten_loop]; unfold bind;
    (destruct (flatten_pass_tree env l s Hq)
       as [[e [_ He]] | [next [-> [_ [Hna [Htr [Hq' [El [_ Hd']]]]]]]]];
     [destruct (no_rejected_leaf l e Hn He)|]);
    specialize (Hd' Ha);
    pose proof (no_promise_leaves_transfer _ l El Hn) as Hn';
    (destruct (unsettled _) eqn:Hu;
     [|rewrite <- (settled_list_is_leaves l _ Hna Htr El Hu); reflexivity]);
    destruct (unsettled_promise _ Hna Hq' Hu) as [x [Hx Hxt]];
    (destruct (promise_element_depth _ x Hx Hxt) as [Hdepth | [e He]];
     [|destruct (no_rejected_leaf _ e Hn' He)]).
  - lia.
  - rewrite (IH _ Hna Hq' Hn') by lia. rewrite El. reflexivity.
Qed.

Lemma flatten_loop_tree extra env l (s : state U) :
  Forall (fun x => inert_leaf x = true) (leaves_in l) ->
  Forall (fun x => has_then x = false) (leaves_in l) ->
  flatten_loop constructors (S (promise_depth_in l) + extra) env l s
    = (Ok (List.filter truthy (leaves_in l)), s).
Proof.
  intros Hq Hn. rewrite Nat.add_succ_l; cbn [flatten_loop]. unfold bind.
  destruct (flatten_pass_tree env l s Hq)
    as [[e [_ He]] | [next [-> [_ [Hna [Htr [Hq' [El [Hd _]]]]]]]]];
    [destruct (no_rejected_leaf l e Hn He)|].
  pose proof (no_promise_leaves_transfer _ l El Hn) as Hn'.
  destruct (unsettled _) eqn:Hu;
    [|rewrite <- (settled_list_is_leaves l _ Hna Htr El Hu); reflexivity].
  destruct (unsettled_promise _ Hna Hq' Hu) as [x [Hx Hxt]].
  destruct (promise_element_depth _ x Hx Hxt) as [Hdepth | [e He]];
    [|destruct (no_rejected_leaf _ e Hn' He)].
  destruct (promise_depth_in l) as [|d] eqn:Ed; [lia|].
  rewrite (flatten_loop_tree_flat d extra env _ s Hna Hq' Hn' Hd).
  rewrite El. reflexivity.
Qed.

Lemma leaves_of_input v :
  leaves_in (match v with VArr items => items | _ => [v] end) = leaves v /\
  promise_depth_in (match v with VArr items => items | _ => [v] end)
    = promise_depth v.
Proof.
  destruct v; unfold leaves_in, promise_depth_in; simpl;
    rewrite ?app_nil_r, ?Nat.max_0_r; split; reflexivity.
Qed.

(** X4: a tree of arrays and fulfilled promises, nested to any depth, whose
    leaves are neither functions nor rejected promises and have no [split],
    is resolved by [asyncFlattenIsolatedPlugin] to its truthy leaves, depth
    first and from left to right, through the promises as through the
    arrays; no constructor is called, and one pass more than the promises
    are deep is enough. *)
Theorem asyncFlattenIsolatedPlugin_tree extra env v (s : state U) :
  Forall (fun x => inert_leaf x = true) (leaves v) ->
  Forall (fun x => has_then x = false) (leaves v) ->
  asyncFlattenIsolatedPlugin constructors (S (promise_depth v) + extra) env v s
    = (Ok (List.filter truthy (leaves v)), s).
Proof.
  intros Hq Hn. unfold asyncFlattenIsolatedPlugin.
  destruct (leaves_of_input v) as [El Ed]. rewrite <- El, <- Ed in *.
  apply flatten_loop_tree; assumption.
Qed.

(** ** Rejected promises inside a tree *)

Lemma rejected_element_fails env l (s : state U) e0 :
  Forall (fun x => is_function x = false) l ->
  In (VRejected e0) l ->
  exists e, flatten_pass constructors env l s = (Fail e, s).
Proof.
  intros Hf Hin. unfold flatten_pass.
  rewrite (bind_ok _ _ s l s (map_call_plain constructors env l s Hf)).
  destruct (promise_all l) as [xs|e] eqn:Ep; [|exists e; reflexivity].
  destruct (promise_all_each l xs Ep _ Hin) as [x Hx]. discriminate.
Qed.

Lemma leaves_in_shallow l :
  Forall (fun x => is_array x = false) l ->
  promise_depth_in l = 0 ->
  leaves_in l = l.
Proof.
  induction 1 as [|x l Hx _ IH]; intros Hd; [reflexivity|].
  rewrite promise_depth_in_cons in Hd. rewrite leaves_in_cons, IH by lia.
  destruct x; try discriminate; try reflexivity. simpl in Hd. lia.
Qed.

Lemma flatten_loop_rejected_flat n extra env l (s : state U) e0 :
  Forall (fun x => is_array x = false) l ->
  Forall (fun x => inert_leaf x = true) (leaves_in l) ->
  In (VRejected e0) (leaves_in l) ->
  promise_depth_in l <= n ->
  exists e,
    In (VRejected e) (leaves_in l) /\
    flatten_loop constructors (S n + extra) env l s = (Fail e, s).
Proof.
  revert l. induction n as [|n IH]; intros l Ha Hq Hin Hd;
    rewrite Nat.add_succ_l; cbn [flatten_loop]; unfold bind.
  - rewrite leaves_in_shallow in Hin by (assumption || lia).
    destruct (flatten_pass_tree env l s Hq)
      as [[e [E He]] | [next [E _]]].
    + exists e. rewrite E. split; [assumption | reflexivity].
    + destruct (rejected_element_fails env l s e0
                  (inert_leaves_not_function l Hq) Hin) as [e E'].
      congruence.
  - destruct (flatten_pass_tree env l s Hq)
      as [[e [E He]] | [next [E [_ [Hna [Htr [Hq' [El [_ Hd']]]]]]]]].
    + exists e. rewrite E. split; [assumption | reflexivity].
    + rewrite E. specialize (Hd' Ha).
      assert (Hin' : In (VRejected e0) (leaves_in next)).
      { apply (truthy_leaves_transfer (fun _ => True) l next);
          [symmetry; assumption | reflexivity | assumption]. }
      destruct (unsettled next) eqn:Hu.
      * destruct (IH next Hna Hq' Hin' ltac:(lia)) as [e [He Ee]].
        exists e. split; [|exact Ee].
        apply (truthy_leaves_transfer (fun _ => True) next l);
          [assumption | reflexivity | assumption].
      * exfalso. destruct (unsettled_false next Hu) as [Hthen _].
        rewrite (leaves_in_settled next Hna Hthen) in Hin'.
        rewrite Forall_forall in Hthen. apply list_elem_of_In in Hin'.
        specialize (Hthen _ Hin'). discriminate.
Qed.

(** X5: a rejected promise anywhere in a tree of arrays and fulfilled
    promises, whose other leaves are neither functions nor have a [split],
    makes [asyncFlattenIsolatedPlugin] fail, with the reason of a rejected
    promise of the tree: however deep it is, it is not dropped and no list
    is returned. *)
Theorem asyncFlattenIsolatedPlugin_rejected_leaf extra env v (s : state U) e0 :
  Forall (fun x => inert_leaf x = true) (leaves v) ->
  In (VRejected e0) (leaves v) ->
  exists e,
    In (VRejected e) (leaves v) /\
    asyncFlattenIsolatedPlugin constructors
      (S (S (promise_depth v)) + extra) env v s = (Fail e, s).
Proof.
  intros Hq Hin. unfold asyncFlattenIsolatedPlugin.
  destruct (leaves_of_input v) as [El Ed]. rewrite <- El, <- Ed in *.
  set (l := match v with VArr items => items | _ => [v] end) in *.
  rewrite Nat.add_succ_l; cbn [flatten_loop]. unfold bind.
  destruct (flatten_pass_tree env l s Hq)
    as [[e [E He]] | [next [E [_ [Hna [Htr [Hq' [El' [Hd _]]]]]]]]].
  - exists e. rewrite E. split; [assumption | reflexivity].
  - rewrite E.
    assert (Hin' : In (VRejected e0) (leaves_in next)).
    { apply (truthy_leaves_transfer (fun _ => True) l next);
        [symmetry; assumption | reflexivity | assumption]. }
    destruct (unsettled next) eqn:Hu.
    + destruct (flatten_loop_rejected_flat (promise_depth_in l) extra env
                  next s e0 Hna Hq' Hin' Hd) as [e [He Ee]].
      exists e. split; [|exact Ee].
      apply (truthy_leaves_transfer (fun _ => True) next l);
        [assumption | reflexivity | assumption].
    + exfalso. destruct (unsettled_false next Hu) as [Hthen _].
      rewrite (leaves_in_settled next Hna Hthen) in Hin'.
      rewrite Forall_forall in Hthen. apply list_elem_of_In in Hin'.
      specialize (Hthen _ Hin'). discriminate.
Qed.

(** ** The entries of the top-level list, one after the other *)

Lemma contributions_state steps fuel env entries (s s' : state U) :
  user s' = user s -> trace s' = trace s ->
  contributions constructors steps fuel env entries s' =
    (fst (contributions constructors steps fuel env entries s),
     set_heap (heap s')
       (snd (contributions constructors steps fuel env entries s))).
Proof.
  intros Hu Ht.
  replace s' with (set_heap (heap s') s)
    by (destruct s, s'; simpl in *; subst; reflexivity).
  apply ignores_heap_contributions.
Qed.

Lemma contributions_app a b fuel env l1 l2 (s : state U) o1 s1 o2 s2 :
  contributions constructors a fuel env l1 s = (Ok o1, s1) ->
  contributions constructors b fuel env l2 s1 = (Ok o2, s2) ->
  contributions constructors (a + b) fuel env (l1 ++ l2) s
    = (Ok (o1 ++ o2), s2).
Proof.
  revert l1 s o1. induction a as [|a IH]; intros l1 s o1 E1 E2;
    [discriminate|].
  destruct l1 as [|p rest].
  - simpl in E1. inversion E1; subst. simpl app.
    replace (S a + b) with (b + S a) by lia.
    replace fuel with (fuel + 0) at 1 by lia.
    rewrite contributions_more_fuel; [assumption|]. rewrite E2. discriminate.
  - simpl in E1 |- *. unfold bind in E1 |- *.
    destruct (entry_plugins constructors fuel env p s) as [[xs| |] s'];
      try discriminate.
    destruct (contributions constructors a fuel env rest s')
      as [[ys| |] s''] eqn:Er; try discriminate.
    inversion E1; subst. rewrite (IH rest s' ys Er E2).
    rewrite app_assoc. reflexivity.
Qed.

Lemma contributions_prefix_fails steps fuel env l1 l2 (s : state U) e s' :
  contributions constructors steps fuel env l1 s = (Fail e, s') ->
  contributions constructors steps fuel env (l1 ++ l2) s = (Fail e, s').
Proof.
  revert l1 s. induction steps as [|steps IH]; intros l1 s E;
    [discriminate|].
  destruct l1 as [|p rest]; [discriminate|].
  simpl in E |- *. unfold bind in E |- *.
  destruct (entry_plugins constructors fuel env p s) as [[xs| |] s1];
    try discriminate; [|assumption].
  destruct (contributions constructors steps fuel env rest s1)
    as [[ys| |] s2] eqn:Er; try discriminate.
  inversion E; subst. rewrite (IH rest s1 Er). reflexivity.
Qed.

Lemma with_config_lookup env l l0 (s : state U) :
  heap s !! config_plugins env = Some l0 ->
  heap (with_config env l s) !! config_plugins env = Some l.
Proof.
  intros H. unfold with_config. simpl.
  apply list_lookup_insert_eq. eapply lookup_lt_Some. eassumption.
Qed.

Lemma observe_with_config fuel env l l0 (s : state U) :
  heap s !! config_plugins env = Some l0 ->
  observe (resolveIsolatedPlugins constructors fuel env (with_config env l s)) =
    match fst (contributions constructors fuel fuel env l s) with
    | Ok out => Resolved out
    | Fail e => Rejected e
    | OutOfFuel => Unfinished
    end /\
  trace (snd (resolveIsolatedPlugins constructors fuel env
                (with_config env l s)))
    = trace (snd (contributions constructors fuel fuel env l s)) /\
  user (snd (resolveIsolatedPlugins constructors fuel env
               (with_config env l s)))
    = user (snd (contributions constructors fuel fuel env l s)).
Proof.
  intros H. pose proof (with_config_lookup env l l0 s H) as Hl.
  rewrite (observe_resolve constructors fuel env _ l Hl).
  destruct (resolve_trace constructors fuel env _ l Hl) as [-> ->].
  rewrite (contributions_state fuel fuel env l s (with_config env l s))
    by reflexivity.
  repeat split; reflexivity.
Qed.

(** X6: the resolved list of a top-level list is put together entry by
    entry, in the order of the list.  When the list [l1] resolves to [out1]
    and then, in the state that resolution leaves, the list [l2] resolves to
    [out2], the list [l1 ++ l2] resolves to [out1 ++ out2], with the same
    constructor calls. *)
Theorem resolveIsolatedPlugins_app n1 n2 env l0 l1 l2 (s : state U) out1 out2 :
  heap s !! config_plugins env = Some l0 ->
  let first :=
    resolveIsolatedPlugins constructors n1 env (with_config env l1 s) in
  let second :=
    resolveIsolatedPlugins constructors n2 env
      (with_config env l2 (snd first)) in
  let both :=
    resolveIsolatedPlugins constructors (n1 + n2) env
      (with_config env (l1 ++ l2) s) in
  observe first = Resolved out1 ->
  observe second = Resolved out2 ->
  observe both = Resolved (out1 ++ out2) /\ trace (snd both) = trace (snd second).
Proof.
  intros Hcfg first second both H1 H2.
  destruct (observe_with_config n1 env l1 l0 s Hcfg) as [O1 [T1 U1]].
  fold first in O1, T1, U1. rewrite H1 in O1.
  destruct (contributions constructors n1 n1 env l1 s)
    as [[o1| |] s1] eqn:E1; simpl in O1; try discriminate.
  inversion O1; subst o1. simpl in T1, U1.
  assert (Hcfg1 : exists l', heap (snd first) !! config_plugins env = Some l').
  { destruct (resolve_heap constructors n1 env (with_config env l1 s) l1
                (with_config_lookup env l1 l0 s Hcfg)) as [arr Hh].
    fold first in Hh. exists l1. rewrite Hh, lookup_app_l.
    - eapply with_config_lookup; eassumption.
    - eapply lookup_lt_Some. eapply with_config_lookup; eassumption. }
  destruct Hcfg1 as [l' Hcfg1].
  destruct (observe_with_config n2 env l2 l' (snd first) Hcfg1) as [O2 [T2 _]].
  fold second in O2, T2. rewrite H2 in O2.
  rewrite (contributions_state n2 n2 env l2 s1 (snd first) U1 T1) in O2, T2.
  destruct (contributions constructors n2 n2 env l2 s1)
    as [[o2| |] s2] eqn:E2; simpl in O2, T2; try discriminate.
  inversion O2; subst o2.
  destruct (observe_with_config (n1 + n2) env (l1 ++ l2) l0 s Hcfg)
    as [O [T _]]. fold both in O, T.
  assert (E1' : contributions constructors n1 (n1 + n2) env l1 s = (Ok out1, s1)).
  { replace n1 with (n1 + 0) at 1 by lia.
    rewrite contributions_more_fuel; [assumption|]. rewrite E1. discriminate. }
  assert (E2' : contributions constructors n2 (n1 + n2) env l2 s1 = (Ok out2, s2)).
  { replace n2 with (n2 + 0) at 1 by lia.
    replace (n1 + n2) with (n2 + n1) by lia.
    rewrite contributions_more_fuel; [assumption|]. rewrite E2. discriminate. }
  rewrite (contributions_app n1 n2 (n1 + n2) env l1 l2 s _ _ _ _ E1' E2')
    in O, T.
  split; [exact O|]. rewrite T, T2. reflexivity.
Qed.

(** X7: the entries are taken in order and the first failure ends the call.
    When the resolution of [l1] is rejected, the resolution of [l1 ++ l2] is
    rejected with the same reason after the same constructor calls: no
    constructor of [l2] is called. *)
Theorem resolveIsolatedPlugins_stops_at_failure fuel env l0 l1 l2
  (s : state U) e :
  heap s !! config_plugins env = Some l0 ->
  observe (resolveIsolatedPlugins constructors fuel env (with_config env l1 s))
    = Rejected e ->
  observe (resolveIsolatedPlugins constructors fuel env
             (with_config env (l1 ++ l2) s)) = Rejected e /\
  trace (snd (resolveIsolatedPlugins constructors fuel env
                (with_config env (l1 ++ l2) s)))
    = trace (snd (resolveIsolatedPlugins constructors fuel env
                    (with_config env l1 s))).
Proof.
  intros Hcfg H1.
  destruct (observe_with_config fuel env l1 l0 s Hcfg) as [O1 [T1 _]].
  destruct (observe_with_config fuel env (l1 ++ l2) l0 s Hcfg) as [O [T _]].
  rewrite H1 in O1.
  destruct (contributions constructors fuel fuel env l1 s)
    as [[o1| |] s1] eqn:E1; simpl in O1; try discriminate.
  inversion O1; subst e0.
  rewrite (contributions_prefix_fails fuel fuel env l1 l2 s e s1 E1) in O, T.
  split; [exact O|]. rewrite T, T1. reflexivity.
Qed.

(** ** The constructors of the top-level list *)

Lemma listed_cons f p l :
  listed f (p :: l) =
    (match p with VFun g => if Nat.eqb g f then 1 else 0 | _ => 0 end)
    + listed f l.
Proof.
  unfold listed. simpl.
  destruct p; try reflexivity. destruct (Nat.eqb f0 f); reflexivity.
Qed.

Lemma entry_plugins_calls f env fuel plugin (s : state U) xs s' :
  entry_plugins constructors fuel env plugin s = (Ok xs, s') ->
  exists calls,
    trace s' = trace s ++ calls /\
    (match plugin with VFun g => if Nat.eqb g f then 1 else 0 | _ => 0 end)
      <= calls_to f calls.
Proof.
  destruct plugin;
    try (intros E; inversion E; subst; exists []; rewrite app_nil_r;
         split; [reflexivity | simpl; lia]).
  rename f0 into g. simpl. unfold bind, invoke. intros E.
  destruct (constructors g env (user s)) as [[returned|e] u];
    [|discriminate].
  match type of E with context [lift _ ?s0] => set (sc := s0) in * end.
  assert (Hrest : exists c2, trace s' = trace sc ++ c2).
  { destruct (js_await returned) as [isolated|e]; simpl in E;
      [|discriminate].
    destruct (truthy isolated).
    - destruct (fail_fast_flatten_loop constructors fuel env
                  (match isolated with VArr items => items | _ => [isolated] end)
                  sc) as [c2 [Hc2 _]].
      unfold asyncFlattenIsolatedPlugin in E. rewrite E in Hc2.
      exists c2. exact Hc2.
    - inversion E; subst. exists []. rewrite app_nil_r. reflexivity. }
  destruct Hrest as [c2 Hc2]. subst sc. simpl in Hc2.
  eexists. split; [rewrite Hc2, <- app_assoc; reflexivity|].
  rewrite calls_to_app. unfold calls_to at 1. simpl.
  destruct (Nat.eqb g f); simpl; lia.
Qed.

Lemma contributions_calls_listed f env steps fuel entries (s : state U) out s' :
  contributions constructors steps fuel env entries s = (Ok out, s') ->
  exists calls,
    trace s' = trace s ++ calls /\ listed f entries <= calls_to f calls.
Proof.
  revert entries s out. induction steps as [|steps IH];
    intros entries s out E; simpl in E; [discriminate|].
  destruct entries as [|p rest].
  - inversion E; subst. exists []. rewrite app_nil_r.
    split; [reflexivity | unfold listed; simpl; lia].
  - unfold bind in E.
    destruct (entry_plugins constructors fuel env p s) as [[xs| |] s1] eqn:Ep;
      try discriminate.
    destruct (contributions constructors steps fuel env rest s1)
      as [[ys| |] s2] eqn:Er; try discriminate.
    inversion E; subst.
    destruct (entry_plugins_calls f env fuel p s xs s1 Ep) as [c1 [T1 B1]].
    destruct (IH rest s1 ys Er) as [c2 [T2 B2]].
    exists (c1 ++ c2). split; [rewrite T2, T1; symmetry; apply app_assoc|].
    rewrite listed_cons, calls_to_app. lia.
Qed.

Lemma within_budget_contributions_listed f env steps fuel entries :
  within_budget f env (fun _ => 0)
    (contributions constructors steps fuel env entries) (listed f entries).
Proof.
  revert entries. induction steps as [|steps IH]; intros entries; simpl.
  - apply within_budget_stop. intros s. split; [reflexivity | discriminate].
  - destruct entries as [|p rest]; [apply within_budget_ret; lia|].
    apply within_budget_bind with (left := fun _ => listed f rest).
    + eapply within_budget_frame
        with (left := fun _ => 0) (extra := listed f rest)
             (budget := match p with
                        | VFun g => if Nat.eqb g f then 1 else 0
                        | _ => 0
                        end);
        [| rewrite listed_cons; lia | intros; lia].
      destruct p; try (apply within_budget_ret; lia).
      apply (within_budget_entry_plugins constructors f env fuel (VFun f0)).
    + intros xs. apply within_budget_bind with (left := fun _ => 0);
        [apply IH | intros; apply within_budget_ret; lia].
Qed.

(** X8: when [resolveIsolatedPlugins] resolves, every function that is an
    entry of the top-level list has been called, once for each time it is
    listed, and beyond that only as often as it occurs in what the calls
    returned: a function that occurs in no returned value has been called
    exactly as often as it is listed.  A function inside an array of the
    top-level list is not counted: it is not called. *)
Theorem resolveIsolatedPlugins_calls_listed f fuel env (s : state U) l out :
  heap s !! config_plugins env = Some l ->
  observe (resolveIsolatedPlugins constructors fuel env s) = Resolved out ->
  exists calls,
    trace (snd (resolveIsolatedPlugins constructors fuel env s))
      = trace s ++ calls /\
    listed f l <= calls_to f calls /\
    calls_to f calls <= listed f l + returned_occurrences f calls /\
    (returned_occurrences f calls = 0 -> calls_to f calls = listed f l).
Proof.
  intros Hcfg Hobs.
  rewrite (observe_resolve constructors fuel env s l Hcfg) in Hobs.
  destruct (resolve_trace constructors fuel env s l Hcfg) as [-> _].
  destruct (within_budget_contributions_listed f env fuel fuel l s)
    as [calls [T [_ B]]].
  destruct (contributions constructors fuel fuel env l s)
    as [[out'| |] s2] eqn:E; simpl in Hobs; try discriminate.
  destruct (contributions_calls_listed f env fuel fuel l s out' s2 E)
    as [calls' [T' B']].
  simpl in T, B |- *. rewrite T in T'. apply app_inv_head in T'. subst calls'.
  exists calls. split; [assumption|]. split; [assumption|].
  split; lia.
Qed.

(** ** The entries that are not functions *)

Lemma contributions_keeps_entries steps fuel env entries (s : state U) out s' :
  contributions constructors steps fuel env entries s = (Ok out, s') ->
  List.filter (fun v => negb (is_function v)) entries `sublist_of` out.
Proof.
  revert entries s out. induction steps as [|steps IH];
    intros entries s out E; simpl in E; [discriminate|].
  destruct entries as [|p rest]; [inversion E; constructor|].
  unfold bind in E.
  destruct (entry_plugins constructors fuel env p s) as [[xs| |] s1] eqn:Ep;
    try discriminate.
  destruct (contributions constructors steps fuel env rest s1)
    as [[ys| |] s2] eqn:Er; try discriminate.
  inversion E; subst. specialize (IH rest s1 ys Er).
  destruct p; try (inversion Ep; subst; simpl; apply sublist_skip; exact IH).
  simpl. apply sublist_inserts_l. exact IH.
Qed.

(** X9: the entries of the top-level list that are not functions are all in
    the resolved list, unchanged and in the order of the list; what the
    constructors contribute is put between them. *)
Theorem resolveIsolatedPlugins_keeps_entries fuel env (s : state U) l out :
  heap s !! config_plugins env = Some l ->
  observe (resolveIsolatedPlugins constructors fuel env s) = Resolved out ->
  List.filter (fun v => negb (is_function v)) l `sublist_of` out.
Proof.
  intros Hcfg Hobs.
  rewrite (observe_resolve constructors fuel env s l Hcfg) in Hobs.
  destruct (contributions constructors fuel fuel env l s)
    as [[out'| |] s2] eqn:E; simpl in Hobs; try discriminate.
  inversion Hobs; subst out'. eapply contributions_keeps_entries. exact E.
Qed.

(** ** The calls of one pass *)

Lemma map_call_order env plugins (s : state U) o s' :
  map_call constructors env plugins s = (o, s') ->
  exists calls,
    trace s' = trace s ++ calls /\
    match o with
    | Ok mapped =>
        map callee calls = functions_of plugins /\
        length mapped = length plugins /\
        forall i p, plugins !! i = Some p -> is_function p = false ->
                    mapped !! i = Some p
    | Fail e =>
        map callee calls `prefix_of` functions_of plugins /\
        exists c, In c calls /\ call_result c = Abrupt e
    | OutOfFuel => False
    end.
Proof.
  revert s o s'. induction plugins as [|p rest IH]; intros s o s' E;
    simpl in E.
  - inversion E; subst. exists []. rewrite app_nil_r.
    split; [reflexivity|]. split; [reflexivity|]. split; [reflexivity|].
    intros i p Hp. discriminate.
  - unfold bind in E. destruct (is_function p) eqn:Ef.
    + destruct p; try discriminate. unfold invoke in E.
      destruct (constructors f env (user s)) as [[v|e] u].
      * match type of E with context [map_call _ _ _ ?s0] =>
          destruct (map_call constructors env rest s0) as [[xs| |] s2] eqn:Er;
          destruct (IH _ _ _ Er) as [c2 [T2 H2]]
        end; inversion E; subst; try contradiction;
          (eexists; split; [rewrite T2; simpl; rewrite <- app_assoc; reflexivity|]).
        -- destruct H2 as [Hc [Hlen Hpos]]. simpl.
           split; [rewrite Hc; reflexivity|]. split; [rewrite Hlen; reflexivity|].
           intros [|i] p Hp Hnf; simpl in Hp |- *.
           ++ inversion Hp; subst. discriminate.
           ++ apply Hpos; assumption.
        -- destruct H2 as [Hpre [c [Hc Hr]]]. simpl. split.
           ++ apply prefix_cons. assumption.
           ++ exists c. split; [right; assumption | assumption].
      * inversion E; subst. eexists. split; [reflexivity|]. simpl. split.
        -- apply prefix_cons. apply prefix_nil.
        -- eexists. split; [left; reflexivity | reflexivity].
    + rewrite (keep_not_function constructors env p s Ef) in E.
      destruct (map_call constructors env rest s) as [[xs| |] s2] eqn:Er;
        destruct (IH _ _ _ Er) as [c2 [T2 H2]]; inversion E; subst;
        try contradiction; (exists c2; split; [assumption|]).
      * destruct H2 as [Hc [Hlen Hpos]].
        split; [destruct p; try discriminate; assumption|].
        split; [simpl; rewrite Hlen; reflexivity|].
        intros [|i] q Hq Hnf; simpl in Hq |- *;
          [assumption | apply Hpos; assumption].
      * destruct p; try discriminate; assumption.
Qed.

(** X10: in one pass of [asyncFlattenIsolatedPlugin] the functions among the
    elements are called in index order, each once, and the elements that are
    not functions keep their place.  A constructor that throws stops the
    calls of the pass; a constructor that returns a rejecting promise does
    not: unless a call threw, every function of the pass has been called,
    whether the pass then fails or not. *)
Theorem flatten_pass_calls env plugins (s : state U) :
  exists calls,
    trace (snd (flatten_pass constructors env plugins s)) = trace s ++ calls /\
    map callee calls `prefix_of` functions_of plugins /\
    (Forall (fun c => exists v, call_result c = Normal v) calls ->
     map callee calls = functions_of plugins) /\
    (forall mapped s1,
       map_call constructors env plugins s = (Ok mapped, s1) ->
       length mapped = length plugins /\
       forall i p, plugins !! i = Some p -> is_function p = false ->
                   mapped !! i = Some p).
Proof.
  unfold flatten_pass, bind.
  destruct (map_call constructors env plugins s) as [o s1] eqn:Em.
  destruct (map_call_order env plugins s o s1 Em) as [calls [T H]].
  exists calls.
  assert (Ht : trace (snd (match o with
                           | Ok a =>
                               let (o0, s'0) := lift (promise_all a) s1 in
                               match o0 with
                               | Ok a0 =>
                                   ret (List.filter truthy (flat_all a0)) s'0
                               | Fail e => (Fail e, s'0)
                               | OutOfFuel => (OutOfFuel, s'0)
                               end
                           | Fail e => (Fail e, s1)
                           | OutOfFuel => (OutOfFuel, s1)
                           end)) = trace s1).
  { destruct o as [mapped| |]; try reflexivity.
    destruct (promise_all mapped); reflexivity. }
  rewrite Ht. split; [assumption|].
  destruct o as [mapped| |]; try contradiction.
  - destruct H as [Hc [Hlen Hpos]]. split; [rewrite Hc; reflexivity|].
    split; [intros _; assumption|].
    intros mapped' s1' E. inversion E; subst. split; assumption.
  - destruct H as [Hpre [c [Hc Hr]]]. split; [assumption|]. split.
    + intros Hall. rewrite Forall_forall in Hall.
      apply list_elem_of_In in Hc. destruct (Hall c Hc) as [v Hv]. congruence.
    + intros mapped s1' E. discriminate.
Qed.

(** ** Constructors that return trees *)





End Coverage.

(** * Instances across the environments of one build *)

Section BuilderFacts.







End BuilderFacts.

Section InstanceLaw.

Context {U : Type}.
Variable constructors : fn_id -> PluginEnvironment -> U -> completion value * U.





End InstanceLaw.



(** * The further facts at work on the small configuration *)

Lemma resolved_list_elements_witness :
  observe (resolveIsolatedPlugins Example.constructors 5 Example.client
             (Example.initial [Example.D0; VFun 0]))
    = Resolved [Example.D0; Example.D; Example.G] /\
  Forall (fun x =>
            (In x [Example.D0; VFun 0] /\ is_function x = false) \/
            (truthy x = true /\ is_array x = false /\
             has_then x = false /\ has_split x = false))
         [Example.D0; Example.D; Example.G].
Proof.
  split; [reflexivity|].
  exact (proj2 (resolved_list_elements Example.constructors 5 Example.client
                  (Example.initial [Example.D0; VFun 0]))
           [Example.D0; VFun 0] [Example.D0; Example.D; Example.G]
           eq_refl eq_refl).
Defined.

Lemma split_element_never_settles_witness :
  asyncFlattenIsolatedPlugin Example.text_constructors 7 Example.client
    (VArr [Example.A; VStr "vue"]) (Example.initial [])
    = (OutOfFuel, Example.initial []) /\
  observe (resolveIsolatedPlugins Example.text_constructors 7 Example.client
             (Example.initial [Example.A; VFun 0])) = Unfinished.
Proof.
  split.
  - apply (proj1 (split_element_never_settles Example.text_constructors 7
                    Example.client (Example.initial []))
             [Example.A; VStr "vue"] (VStr "vue"));
      [repeat constructor | right; left; reflexivity | reflexivity..].
  - apply (proj2 (split_element_never_settles Example.text_constructors 7
                    Example.client (Example.initial [Example.A; VFun 0]))
             [Example.A] 0 [] (VStr "vue") (VStr "vue"));
      try reflexivity. repeat constructor.
Defined.

Lemma asyncFlattenIsolatedPlugin_idempotent_witness :
  fst (asyncFlattenIsolatedPlugin Example.constructors 3 Example.client
         (VFun 4) (Example.initial []))
    = Ok [Example.A; Example.B; Example.C] /\
  asyncFlattenIsolatedPlugin Example.constructors 1 Example.client
    (VArr [Example.A; Example.B; Example.C]) (Example.initial [])
    = (Ok [Example.A; Example.B; Example.C], Example.initial []).
Proof.
  split; [reflexivity|].
  apply (asyncFlattenIsolatedPlugin_idempotent Example.constructors 3 0
           Example.client (VFun 4) (Example.initial []) (Example.initial [])
           [Example.A; Example.B; Example.C]
           (snd (asyncFlattenIsolatedPlugin Example.constructors 3
                   Example.client (VFun 4) (Example.initial []))));
    [reflexivity | repeat constructor].
Defined.

Lemma asyncFlattenIsolatedPlugin_tree_witness :
  asyncFlattenIsolatedPlugin Example.constructors 3 Example.client
    (VArr [Example.A;
           VFulfilled (VArr [Example.B; VNull; VFulfilled Example.C]);
           VBool false; VArr [VArr [Example.D]]])
    (Example.initial [])
  = (Ok [Example.A; Example.B; Example.C; Example.D], Example.initial []).
Proof.
  apply (asyncFlattenIsolatedPlugin_tree Example.constructors 0
           Example.client
           (VArr [Example.A;
                  VFulfilled (VArr [Example.B; VNull; VFulfilled Example.C]);
                  VBool false; VArr [VArr [Example.D]]])
           (Example.initial []));
    repeat constructor.
Defined.

Lemma asyncFlattenIsolatedPlugin_rejected_leaf_witness :
  exists e,
    In (VRejected e)
       (leaves (VArr [Example.A;
                      VArr [VFulfilled (VArr [VRejected (VStr "no")])]])) /\
    asyncFlattenIsolatedPlugin Example.constructors 3 Example.client
      (VArr [Example.A; VArr [VFulfilled (VArr [VRejected (VStr "no")])]])
      (Example.initial [])
    = (Fail e, Example.initial []).
Proof.
  apply (asyncFlattenIsolatedPlugin_rejected_leaf Example.constructors 0
           Example.client
           (VArr [Example.A; VArr [VFulfilled (VArr [VRejected (VStr "no")])]])
           (Example.initial []) (VStr "no"));
    [repeat constructor | right; left; reflexivity].
Defined.

Lemma resolveIsolatedPlugins_app_witness :
  observe (resolveIsolatedPlugins Example.constructors 6 Example.client
             (with_config Example.client
                ([Example.D0; VFun 1] ++ [VFun 4]) (Example.initial [])))
  = Resolved ([Example.D0; Example.G] ++ [Example.A; Example.B; Example.C]).
Proof.
  exact (proj1 (resolveIsolatedPlugins_app Example.constructors 3 3
                  Example.client [] [Example.D0; VFun 1] [VFun 4]
                  (Example.initial []) [Example.D0; Example.G]
                  [Example.A; Example.B; Example.C]
                  eq_refl eq_refl eq_refl)).
Defined.

Lemma resolveIsolatedPlugins_stops_at_failure_witness :
  observe (resolveIsolatedPlugins Example.constructors 5 Example.client
             (with_config Example.client
                ([Example.D0; VFun 7] ++ [VFun 1]) (Example.initial [])))
    = Rejected (VStr "boom") /\
  map callee
    (trace (snd (resolveIsolatedPlugins Example.constructors 5 Example.client
                   (with_config Example.client
                      ([Example.D0; VFun 7] ++ [VFun 1])
                      (Example.initial []))))) = [7].
Proof.
  destruct (resolveIsolatedPlugins_stops_at_failure Example.constructors 5
              Example.client [] [Example.D0; VFun 7] [VFun 1]
              (Example.initial []) (VStr "boom") eq_refl eq_refl)
    as [Hobs Htrace].
  split; [exact Hobs|]. rewrite Htrace. reflexivity.
Defined.

Lemma resolveIsolatedPlugins_calls_listed_witness :
  listed 3 [VFun 3; VArr [VFun 3]; VFun 3] = 2 /\
  exists calls,
    trace (snd (resolveIsolatedPlugins Example.constructors 5 Example.client
                  (Example.initial [VFun 3; VArr [VFun 3]; VFun 3])))
      = calls /\
    calls_to 3 calls = 2.
Proof.
  split; [reflexivity|].
  destruct (resolveIsolatedPlugins_calls_listed Example.constructors 3 5
              Example.client
              (Example.initial [VFun 3; VArr [VFun 3]; VFun 3])
              [VFun 3; VArr [VFun 3]; VFun 3]
              [Example.H; VArr [VFun 3]; Example.H] eq_refl eq_refl)
    as [calls [Htrace [_ [_ Hexact]]]].
  exists calls. split; [exact Htrace|].
  rewrite Hexact; [reflexivity|].
  vm_compute in Htrace. rewrite <- Htrace. reflexivity.
Defined.

Lemma resolveIsolatedPlugins_keeps_entries_witness :
  observe (resolveIsolatedPlugins Example.constructors 5 Example.client
             (Example.initial [Example.D0; VFun 0; Example.A]))
    = Resolved [Example.D0; Example.D; Example.G; Example.A] /\
  [Example.D0; Example.A]
    `sublist_of` [Example.D0; Example.D; Example.G; Example.A].
Proof.
  split; [reflexivity|].
  exact (resolveIsolatedPlugins_keeps_entries Example.constructors 5
           Example.client (Example.initial [Example.D0; VFun 0; Example.A])
           [Example.D0; VFun 0; Example.A]
           [Example.D0; Example.D; Example.G; Example.A] eq_refl eq_refl).
Defined.

Lemma flatten_pass_calls_witness :
  exists calls,
    trace (snd (flatten_pass Example.constructors Example.client
                  [Example.A; VFun 1; VFun 3] (Example.initial [])))
      = calls /\
    map callee calls = [1; 3].
Proof.
  destruct (flatten_pass_calls Example.constructors Example.client
              [Example.A; VFun 1; VFun 3] (Example.initial []))
    as [calls [Htrace [_ [Hall _]]]].
  exists calls. split; [exact Htrace|]. apply Hall.
  vm_compute in Htrace. rewrite <- Htrace. repeat constructor; eexists; reflexivity.
Defined.

